(** * Cloudflare-Workers-Proxy: the request handler of [src/worker.js]

    A shallow embedding of the worker's [handleRequest] pipeline and of the
    helper functions it calls, followed by the properties of the handler.

    Conventions of the embedding.
    - A JavaScript string is a [string]: the sequence of bytes of its UTF-8
      encoding.  Every pattern the worker searches for is ASCII, and an ASCII
      byte never occurs inside a multi-byte UTF-8 sequence, so searching and
      splitting on bytes agrees with searching on UTF-16 code units.
    - A JavaScript exception is the [Throw] case of [result], carrying the
      [message] of the error object.
    - The runtime services the worker calls but does not define (the WHATWG
      URL parser and [fetch]) are the fields of the class [Environment].  The
      ECMAScript and Fetch library functions with a small, closed definition
      ([decodeURIComponent], [encodeURIComponent], [String.prototype.replace],
      [JSON.stringify] on strings, the [Headers] methods, the [Response]
            constructor) are written out, as the standards define them and as the
      Workers runtime implements them: [Headers] objects carry no guard, so
      [Host] and [Set-Cookie] can be set like any other header; a value given
      to a [Headers] object is stored without the whitespace at its ends; a
      response built without a status text takes the reason phrase of its
      status; and an empty string is accepted as the body of a response
      whose status allows none.
    - A header name, and a header value once the whitespace at its ends is
      gone, is well-formed, and so is a status text: the constructors'
      validation of names, values and reason phrases is left out.
    - An effectful computation is a function from the list of outbound
      requests issued so far to an outcome and the extended list. *)

From Stdlib Require Import List Bool Arith Lia Sorted OrderedTypeEx.
From Stdlib Require Import Ascii String.
Import ListNotations.

Local Open Scope string_scope.

(** ** Exceptions *)

Inductive result (A : Type) : Type :=
| Ok (a : A)
| Throw (message : string).

Arguments Ok {A} a.
Arguments Throw {A} message.

Definition result_bind {A B : Type} (r : result A) (k : A -> result B) : result B :=
  match r with
  | Ok a => k a
  | Throw m => Throw m
  end.

Definition result_map {A B : Type} (f : A -> B) (r : result A) : result B :=
  result_bind r (fun a => Ok (f a)).

(** ** Characters and strings *)

Module Chars.

(** The double quote, written by its code so that no literal contains one. *)
Definition dquote : ascii := "034"%char.
Definition squote : ascii := "'"%char.
Definition backslash : ascii := "\"%char.
Definition slash : ascii := "/"%char.
Definition percent : ascii := "%"%char.
Definition dollar : ascii := "$"%char.

Definition code (c : ascii) : nat := nat_of_ascii c.

Definition in_range (lo hi : nat) (c : ascii) : bool :=
  Nat.leb lo (code c) && Nat.leb (code c) hi.

Definition is_upper : ascii -> bool := in_range 65 90.
Definition is_lower : ascii -> bool := in_range 97 122.
Definition is_digit : ascii -> bool := in_range 48 57.

(** ASCII lower-casing, as [toLowerCase] acts on a header name and as the
    Fetch standard's byte-lowercase. *)
Definition to_lower (c : ascii) : ascii :=
  if is_upper c then ascii_of_nat (code c + 32) else c.

Definition hex_value (c : ascii) : option nat :=
  if is_digit c then Some (code c - 48)
  else if in_range 65 70 c then Some (code c - 55)
  else if in_range 97 102 c then Some (code c - 87)
  else None.

Definition hex_digit (n : nat) : ascii :=
  if Nat.ltb n 10 then ascii_of_nat (48 + n) else ascii_of_nat (55 + n).

End Chars.

Module Str.

Fixpoint map (f : ascii -> ascii) (s : string) : string :=
  match s with
  | EmptyString => EmptyString
  | String c t => String (f c) (map f t)
  end.

Fixpoint mem (c : ascii) (s : string) : bool :=
  match s with
  | EmptyString => false
  | String d t => Ascii.eqb c d || mem c t
  end.

Fixpoint drop (n : nat) (s : string) : string :=
  match n, s with
  | O, _ => s
  | S k, String _ t => drop k t
  | S _, EmptyString => EmptyString
  end.

(** [String.prototype.toLowerCase] on the ASCII range. *)
Definition toLowerCase (s : string) : string := map Chars.to_lower s.

(** [s.startsWith(p)] *)
Definition startsWith (s p : string) : bool := String.prefix p s.

(** [s.includes(p)] *)
Fixpoint includes (s p : string) : bool :=
  String.prefix p s ||
  match s with
  | EmptyString => false
  | String _ t => includes t p
  end.

(** [s.replace(pat, repl)] for a string pattern and a replacement without
    [$] patterns: the first occurrence of [pat] is replaced. *)
Fixpoint replace_first (pat repl s : string) : string :=
  if String.prefix pat s then repl ++ drop (String.length pat) s
  else match s with
       | EmptyString => EmptyString
       | String c t => String c (replace_first pat repl t)
       end.

End Str.

(** ** [encodeURIComponent] and [decodeURIComponent] (ECMAScript 19.2.6) *)

Module URI.

(** The characters [encodeURIComponent] leaves alone: letters, digits and
    the marks [-_.!~*'()]. *)
Definition unreserved (c : ascii) : bool :=
  Chars.is_upper c || Chars.is_lower c || Chars.is_digit c || Str.mem c "-_.!~*'()".

Definition escape (c : ascii) : string :=
  String Chars.percent
    (String (Chars.hex_digit (Chars.code c / 16))
       (String (Chars.hex_digit (Chars.code c mod 16)) EmptyString)).

(** Every byte outside the unreserved set becomes [%XX], upper-case hex. *)
Fixpoint encodeURIComponent (s : string) : string :=
  match s with
  | EmptyString => EmptyString
  | String c t =>
      if unreserved c then String c (encodeURIComponent t)
      else escape c ++ encodeURIComponent t
  end.

Definition URIError : string := "URI malformed".

(** The number of leading 1 bits of an octet. *)
Definition leading_ones (b : nat) : nat :=
  if Nat.ltb b 128 then 0
  else if Nat.ltb b 192 then 1
  else if Nat.ltb b 224 then 2
  else if Nat.ltb b 240 then 3
  else if Nat.ltb b 248 then 4
  else 5.

Definition between (lo hi b : nat) : bool := Nat.leb lo b && Nat.leb b hi.

(** Well-formed UTF-8 byte sequences of two to four octets (Unicode,
    table 3-7): no overlong form, no surrogate, nothing above U+10FFFF. *)
Definition valid_utf8 (octets : list nat) : bool :=
  match octets with
  | [a; b] => between 194 223 a && between 128 191 b
  | [a; b; c] =>
      ((Nat.eqb a 224 && between 160 191 b)
       || (between 225 236 a && between 128 191 b)
       || (Nat.eqb a 237 && between 128 159 b)
       || (between 238 239 a && between 128 191 b))
      && between 128 191 c
  | [a; b; c; d] =>
      ((Nat.eqb a 240 && between 144 191 b)
       || (between 241 243 a && between 128 191 b)
       || (Nat.eqb a 244 && between 128 143 b))
      && between 128 191 c && between 128 191 d
  | _ => false
  end.

Definition bytes_to_string (octets : list nat) : string :=
  string_of_list_ascii (List.map ascii_of_nat octets).

(** The loop of [Decode].  [pending] holds the octets of the multi-byte
    sequence being read and [need] the number of [%XX] escapes it still
    lacks; outside a sequence both are empty. *)
Fixpoint decode_loop (s : string) (pending : list nat) (need : nat) : result string :=
  match need with
  | O =>
      match s with
      | EmptyString => Ok EmptyString
      | String c t =>
          if Ascii.eqb c Chars.percent then
            match t with
            | String h1 (String h2 t') =>
                match Chars.hex_value h1, Chars.hex_value h2 with
                | Some x, Some y =>
                    let b := 16 * x + y in
                    match leading_ones b with
                    | 0 => result_map (String (ascii_of_nat b)) (decode_loop t' [] 0)
                    | 1 => Throw URIError
                    | S (S k) =>
                        if Nat.ltb 2 k then Throw URIError
                        else decode_loop t' [b] (S k)
                    end
                | _, _ => Throw URIError
                end
            | _ => Throw URIError
            end
          else result_map (String c) (decode_loop t [] 0)
      end
  | S k =>
      match s with
      | String p (String h1 (String h2 t')) =>
          if Ascii.eqb p Chars.percent then
            match Chars.hex_value h1, Chars.hex_value h2 with
            | Some x, Some y =>
                let octets := (pending ++ [16 * x + y])%list in
                match k with
                | O =>
                    if valid_utf8 octets
                    then result_map (String.append (bytes_to_string octets))
                           (decode_loop t' [] 0)
                    else Throw URIError
                | S _ => decode_loop t' octets k
                end
            | _, _ => Throw URIError
            end
          else Throw URIError
      | _ => Throw URIError
      end
  end.

Definition decodeURIComponent (s : string) : result string := decode_loop s [] 0.

End URI.

(** ** Regular expressions (ECMAScript 22.2) *)

Module RegExp.

(** The pattern constructs the worker uses.  [Group i r] is the capturing
    group opened by the [i]-th left parenthesis. *)
Inductive regex : Type :=
| Empty
| Char (c : ascii)
| Class (cs : list ascii)
| Seq (r1 r2 : regex)
| Alt (r1 r2 : regex)
| Group (i : nat) (r : regex)
| NegLookahead (r : regex).

Fixpoint lit (s : string) : regex :=
  match s with
  | EmptyString => Empty
  | String c t => Seq (Char c) (lit t)
  end.

(** A match state: the text consumed since the start of the match, the
    text still ahead, and the captures recorded so far.  No construct above
    looks behind the start of the match, so the text before it is not part
    of the state. *)
Record state : Type := mkState {
  seen : string;
  ahead : string;
  caps : list (nat * string)
}.

Definition cont : Type := state -> option state.

Definition step (x : state) (c : ascii) (t : string) : state :=
  mkState (seen x ++ String c EmptyString) t (caps x).

Definition capture (i : nat) (from x : state) : state :=
  mkState (seen x) (ahead x)
    ((i, Str.drop (String.length (seen from)) (seen x)) :: caps x).

(** The matcher of a pattern, in the continuation style of the standard:
    [run r x k] matches [r] from state [x] and hands every way of doing so,
    in priority order, to [k]; the first that [k] accepts wins. *)
Fixpoint run (r : regex) (x : state) (k : cont) : option state :=
  match r with
  | Empty => k x
  | Char c =>
      match ahead x with
      | String d t => if Ascii.eqb d c then k (step x d t) else None
      | EmptyString => None
      end
  | Class cs =>
      match ahead x with
      | String d t => if existsb (Ascii.eqb d) cs then k (step x d t) else None
      | EmptyString => None
      end
  | Seq r1 r2 => run r1 x (fun y => run r2 y k)
  | Alt r1 r2 =>
      match run r1 x k with
      | Some y => Some y
      | None => run r2 x k
      end
  | Group i r1 => run r1 x (fun y => k (capture i x y))
  | NegLookahead r1 =>
      match run r1 x Some with
      | Some _ => None
      | None => k x
      end
  end.

(** A match of [r] that starts at the first character of [s]. *)
Definition match_here (r : regex) (s : string) : option state :=
  run r (mkState EmptyString s []) Some.

Fixpoint lookup (i : nat) (l : list (nat * string)) : option string :=
  match l with
  | [] => None
  | (j, v) :: t => if Nat.eqb i j then Some v else lookup i t
  end.

Definition digit_value (c : ascii) : option nat :=
  if Chars.is_digit c then Some (Chars.code c - 48) else None.

(** The text a [$n] or [$nn] reference stands for: capture [index] when the
    pattern has that many groups (an unset capture is empty), otherwise the
    reference itself. *)
Definition capture_ref (ngroups index : nat) (x : state) (ref : string) : string :=
  if Nat.leb 1 index && Nat.leb index ngroups then
    match lookup index (caps x) with
    | Some v => v
    | None => EmptyString
    end
  else ref.

(** [GetSubstitution]: the expansion of a replacement template for one
    match.  [before] is the input to the left of the match; the input to
    its right is [ahead x].  The pattern has no named group, so [$<] stands
    for itself. *)
Fixpoint GetSubstitution (ngroups : nat) (before : string) (x : state)
    (template : string) : string :=
  match template with
  | EmptyString => EmptyString
  | String c t =>
      if Ascii.eqb c Chars.dollar then
        match t with
        | EmptyString => String c EmptyString
        | String d t' =>
            if Ascii.eqb d Chars.dollar then
              String Chars.dollar (GetSubstitution ngroups before x t')
            else if Ascii.eqb d "`"%char then
              before ++ GetSubstitution ngroups before x t'
            else if Ascii.eqb d "&"%char then
              seen x ++ GetSubstitution ngroups before x t'
            else if Ascii.eqb d "'"%char then
              ahead x ++ GetSubstitution ngroups before x t'
            else
              match digit_value d with
              | None => String c (GetSubstitution ngroups before x t)
              | Some n1 =>
                  let one :=
                    capture_ref ngroups n1 x (String c (String d EmptyString))
                    ++ GetSubstitution ngroups before x t' in
                  match t' with
                  | EmptyString => one
                  | String e t'' =>
                      match digit_value e with
                      | None => one
                      | Some n2 =>
                          if Nat.leb (10 * n1 + n2) ngroups then
                            capture_ref ngroups (10 * n1 + n2) x
                              (String c (String d (String e EmptyString)))
                            ++ GetSubstitution ngroups before x t''
                          else one
                      end
                  end
              end
        end
      else String c (GetSubstitution ngroups before x t)
  end.

(** [String.prototype.replace] with a global pattern and a string
    replacement.  The loop walks the input once: [skip] counts the
    characters of the last match that are still to be passed over, and with
    [skip = 0] a match is tried at the current position.  A match is
    replaced by its substitution and the search resumes after it; an empty
    match resumes one character further; where nothing matches the
    character is copied. *)
Fixpoint replace_loop (r : regex) (ngroups : nat) (template : string)
    (before s : string) (skip : nat) : string :=
  match skip with
  | S k =>
      match s with
      | EmptyString => EmptyString
      | String c t =>
          replace_loop r ngroups template (before ++ String c EmptyString) t k
      end
  | O =>
      match match_here r s with
      | Some x =>
          GetSubstitution ngroups before x template ++
          match s with
          | EmptyString => EmptyString
          | String c t =>
              match String.length (seen x) with
              | O => String c (replace_loop r ngroups template
                                 (before ++ String c EmptyString) t 0)
              | S n => replace_loop r ngroups template
                         (before ++ String c EmptyString) t n
              end
          end
      | None =>
          match s with
          | EmptyString => EmptyString
          | String c t =>
              String c (replace_loop r ngroups template
                          (before ++ String c EmptyString) t 0)
          end
      end
  end.

Definition replace_all (r : regex) (ngroups : nat) (template s : string) : string :=
  replace_loop r ngroups template EmptyString s 0.

End RegExp.

(** ** The helper functions of the worker *)

(** [ensureProtocol(url, defaultProtocol)] *)
Definition ensureProtocol (url defaultProtocol : string) : string :=
  if Str.startsWith url "http://" || Str.startsWith url "https://"
  then url
  else defaultProtocol ++ "//" ++ url.

(** The pattern of line 135: group 1 is group 2, the alternation
    [href|src|action], followed by [=] and a character class of the double
    and the single quote; after group 1 come a [/] and the negative lookahead
    [(?!/)]. *)
Definition relative_path_regex : RegExp.regex :=
  RegExp.Seq
    (RegExp.Group 1
       (RegExp.Seq
          (RegExp.Group 2
             (RegExp.Alt (RegExp.lit "href")
                (RegExp.Alt (RegExp.lit "src") (RegExp.lit "action"))))
          (RegExp.Seq (RegExp.Char "="%char)
             (RegExp.Class [Chars.dquote; Chars.squote]))))
    (RegExp.Seq (RegExp.Char Chars.slash)
       (RegExp.NegLookahead (RegExp.Char Chars.slash))).

(** [replaceRelativePaths(text, protocol, host, origin)]; [origin] is not
    used by the body. *)
Definition replaceRelativePaths (text protocol host origin : string) : string :=
  RegExp.replace_all relative_path_regex 2
    ("$1" ++ protocol ++ "//" ++ host ++ "/") text.

(** ** [JSON.stringify] on a string (ECMAScript 25.5.2, QuoteJSONString) *)

Module JSON.

Definition hex_lower (n : nat) : ascii :=
  if Nat.ltb n 10 then ascii_of_nat (48 + n) else ascii_of_nat (87 + n).

Definition escape_char (c : ascii) : string :=
  let n := Chars.code c in
  if Nat.eqb n 8 then "\b"
  else if Nat.eqb n 9 then "\t"
  else if Nat.eqb n 10 then "\n"
  else if Nat.eqb n 12 then "\f"
  else if Nat.eqb n 13 then "\r"
  else if Ascii.eqb c Chars.dquote then String Chars.backslash (String Chars.dquote EmptyString)
  else if Ascii.eqb c Chars.backslash then "\\"
  else if Nat.ltb n 32 then
    "\u00" ++ String (hex_lower (n / 16)) (String (hex_lower (n mod 16)) EmptyString)
  else String c EmptyString.

Fixpoint escape (s : string) : string :=
  match s with
  | EmptyString => EmptyString
  | String c t => escape_char c ++ escape t
  end.

Definition quote (s : string) : string :=
  String Chars.dquote (escape s ++ String Chars.dquote EmptyString).

(** [JSON.stringify({ key: value })] for a string [value]. *)
Definition stringify_field (key value : string) : string :=
  "{" ++ quote key ++ ":" ++ quote value ++ "}".

End JSON.

(** ** [Headers] (Fetch standard, header lists) *)

Module Headers.

(** A header list: the headers in the order they were appended, names in
    the case they were given. *)
Definition t : Type := list (string * string).

(** Names are compared without regard to ASCII case. *)
Definition name_eqb (a b : string) : bool :=
  String.eqb (Str.toLowerCase a) (Str.toLowerCase b).

Definition values (h : t) (name : string) : list string :=
  List.map snd (List.filter (fun e => name_eqb (fst e) name) h).

(** [h.has(name)] *)
Definition has (h : t) (name : string) : bool :=
  existsb (fun e => name_eqb (fst e) name) h.

(** [h.get(name)]: the values of the headers named [name], joined by a
    comma and a space; [None] is JavaScript's [null]. *)
Definition get (h : t) (name : string) : option string :=
  match values h name with
  | [] => None
  | vs => Some (String.concat ", " vs)
  end.

(** HTTP whitespace: tab, line feed, carriage return and space. *)
Definition is_whitespace (c : ascii) : bool :=
  existsb (Nat.eqb (Chars.code c)) [9; 10; 13; 32].

Fixpoint strip_leading (s : string) : string :=
  match s with
  | EmptyString => EmptyString
  | String c t => if is_whitespace c then strip_leading t else s
  end.

Fixpoint strip_trailing (s : string) : string :=
  match s with
  | EmptyString => EmptyString
  | String c t =>
      match strip_trailing t with
      | EmptyString => if is_whitespace c then EmptyString else String c EmptyString
      | kept => String c kept
      end
  end.

(** The normalization of a header value: the HTTP whitespace at its two
    ends is removed.  [append], [set] and the constructor apply it to every
    value they are given. *)
Definition normalize (value : string) : string :=
  strip_trailing (strip_leading value).

(** [h.append(name, value)] *)
Definition append (h : t) (name value : string) : t :=
  (h ++ [(name, normalize value)])%list.

(** The header list in which the first header named [name] has the value
    [value] and the others of that name are gone; without one the header is
    added at the end. *)
Fixpoint put (h : t) (name value : string) : t :=
  match h with
  | [] => [(name, value)]
  | (n, v) :: rest =>
      if name_eqb n name
      then (n, value) :: List.filter (fun e => negb (name_eqb (fst e) name)) rest
      else (n, v) :: put rest name value
  end.

(** [h.set(name, value)] *)
Definition set (h : t) (name value : string) : t :=
  put h name (normalize value).


(** Insertion into a list of names kept in ascending order without
    repetition. *)
Fixpoint insert_name (n : string) (l : list string) : list string :=
  match l with
  | [] => [n]
  | m :: rest =>
      match String.compare n m with
      | Lt => n :: l
      | Eq => l
      | Gt => m :: insert_name n rest
      end
  end.

(** The lower-cased names of a header list, sorted, each once. *)
Definition sorted_names (h : t) : list string :=
  List.fold_right insert_name [] (List.map (fun e => Str.toLowerCase (fst e)) h).

(** What one lower-cased name contributes to the iteration: one entry with
    the combined value, or one entry per value for [set-cookie]. *)
Definition group (h : t) (n : string) : list (string * string) :=
  if String.eqb n "set-cookie" then List.map (pair n) (values h n)
  else match get h n with
       | Some v => [(n, v)]
       | None => []
       end.

(** [[...h]]: iteration yields the header list sorted and combined. *)
Definition entries (h : t) : list (string * string) :=
  List.flat_map (group h) (sorted_names h).

(** [new Headers(init)] for a sequence of pairs, or for the own properties
    of a plain object in their order: each is appended. *)
Definition of_list (init : list (string * string)) : t :=
  List.fold_left (fun h e => append h (fst e) (snd e)) init [].

(** What the constructor of [Headers], and the [headers] member of the
    options of a [Response], accept: a [Headers] object, or a sequence of
    pairs (a plain object stands for the pairs of its own properties). *)
Inductive init : Type :=
| Object (h : t)
| Pairs (l : list (string * string)).

(** [new Headers(init)]: the header list of a [Headers] object is copied as
    it is; pairs are appended one by one. *)
Definition new (i : init) : t :=
  match i with
  | Object h => h
  | Pairs l => of_list l
  end.


(** The own enumerable properties that spreading a [Headers] object into an
    object literal copies.  The headers live in an internal slot and the
    methods on the prototype: the object has no own property. *)
Definition spread (h : t) : list (string * string) := [].

End Headers.

(** [ToString] of a value that is a string or [null], as the platform
    applies it to an argument declared as a string. *)
Definition to_string (v : option string) : string :=
  match v with
  | Some s => s
  | None => "null"
  end.

(** ** [URL], [Request] and [Response] *)

(** The components of a parsed URL that the worker reads, with the one
    property of a parsed host that the properties below rely on. *)
Record URL : Type := mkURL {
  href : string;
  protocol : string;
  host : string;
  hostname : string;
    pathname : string;
  query : option string;
  origin : string;
  (** The host parser refuses a host with a tab, a line feed, a carriage
      return or a space: no whitespace stands at the ends of [hostname]. *)
  hostname_normalized : Headers.normalize hostname = hostname
}.

(** The [search] getter: empty for a null or empty query, otherwise [?] and
    the query. *)
Definition search (u : URL) : string :=
  match query u with
  | None => EmptyString
  | Some EmptyString => EmptyString
  | Some qs => "?" ++ qs
  end.

(** The [body] of a request or response: [null], or a stream, given by what
    reading it to the end as text yields. *)
Inductive Body : Type :=
| NullBody
| StreamBody (content : result string).

(** What a constructor accepts as a body: the body of another object, or a
    string. *)
Inductive BodyInit : Type :=
| OfBody (b : Body)
| OfText (text : string).

(** [body.text()] *)
Definition Body_text (b : Body) : result string :=
  match b with
  | NullBody => Ok EmptyString
  | StreamBody content => content
  end.


Inductive RedirectMode : Type := follow | manual.

Record Request : Type := mkRequest {
  url : string;
  method : string;
  headers : Headers.t;
  body : Body;
  redirect : RedirectMode
}.

Record Response : Type := mkResponse {
  status : nat;
  statusText : string;
  res_headers : Headers.t;
  res_body : Body
}.

Definition with_headers (r : Response) (h : Headers.t) : Response :=
  mkResponse (status r) (statusText r) h (res_body r).

Definition null_body_status (st : nat) : bool :=
  existsb (Nat.eqb st) [101; 103; 204; 205; 304].

Definition RangeError_status : string :=
  "Responses may only be constructed with status codes in the range 200 to 599, inclusive.".
Definition TypeError_null_body : string :=
  "Response with null body status (101, 204, 205, or 304) cannot have a body.".

(** The reason phrase that goes with a status in the range of the
    constructor, for a response built without a status text. *)
Definition default_status_text (st : nat) : string :=
  match
    List.find (fun e => Nat.eqb (fst e) st)
      [ (200, "OK"); (201, "Created"); (202, "Accepted");
        (203, "Non-Authoritative Information"); (204, "No Content");
        (205, "Reset Content"); (206, "Partial Content"); (207, "Multi-Status");
        (208, "Already Reported"); (226, "IM Used");
        (300, "Multiple Choices"); (301, "Moved Permanently"); (302, "Found");
        (303, "See Other"); (304, "Not Modified"); (305, "Use Proxy");
        (307, "Temporary Redirect"); (308, "Permanent Redirect");
        (400, "Bad Request"); (401, "Unauthorized"); (402, "Payment Required");
        (403, "Forbidden"); (404, "Not Found"); (405, "Method Not Allowed");
        (406, "Not Acceptable"); (407, "Proxy Authentication Required");
        (408, "Request Timeout"); (409, "Conflict"); (410, "Gone");
        (411, "Length Required"); (412, "Precondition Failed");
        (413, "Payload Too Large"); (414, "URI Too Long");
        (415, "Unsupported Media Type"); (416, "Range Not Satisfiable");
        (417, "Expectation Failed"); (418, "I'm a teapot");
        (421, "Misdirected Request"); (422, "Unprocessable Entity");
        (423, "Locked"); (424, "Failed Dependency"); (426, "Upgrade Required");
        (428, "Precondition Required"); (429, "Too Many Requests");
        (431, "Request Header Fields Too Large");
        (451, "Unavailable For Legal Reasons");
        (500, "Internal Server Error"); (501, "Not Implemented");
        (502, "Bad Gateway"); (503, "Service Unavailable");
        (504, "Gateway Timeout"); (505, "HTTP Version Not Supported");
        (506, "Variant Also Negotiates"); (507, "Insufficient Storage");
        (508, "Loop Detected"); (510, "Not Extended");
        (511, "Network Authentication Required") ]
  with
  | Some e => snd e
  | None => EmptyString
  end.

(** [new Response(body, { status, statusText, headers })] (Fetch standard,
    initialize a response, as the Workers runtime has it).  An absent
    [status] is 200; an absent [statusText] is the reason phrase of the
    status.  With a status that allows no body, a stream is refused and so is
    a string, unless it is empty: then the response has no body.  A string
    body brings a [Content-Type] of its own when the headers have none. *)
Definition Response_new (b : BodyInit) (st : option nat) (text : option string)
    (init : Headers.init) : result Response :=
  let st := match st with Some n => n | None => 200 end in
  if negb (Nat.leb 200 st && Nat.leb st 599) then Throw RangeError_status
  else
    let text := match text with Some t => t | None => default_status_text st end in
    let h := Headers.new init in
    match b with
    | OfBody NullBody => Ok (mkResponse st text h NullBody)
    | OfBody (StreamBody content) =>
        if null_body_status st then Throw TypeError_null_body
        else Ok (mkResponse st text h (StreamBody content))
    | OfText s =>
        if null_body_status st then
          if String.eqb s EmptyString then Ok (mkResponse st text h NullBody)
          else Throw TypeError_null_body
        else Ok (mkResponse st text
                   (if Headers.has h "Content-Type" then h
                    else Headers.append h "Content-Type" "text/plain;charset=UTF-8")
                   (StreamBody (Ok s)))
    end.


(** ** The environment of the worker *)

(** What the handler uses and this file does not define: the URL parser of
    the runtime, the upstream servers behind [fetch], and the text of the
    landing page (the template literal of lines 167 to 251, which no property
    below reads). *)
Class Environment : Type := {
  (** [new URL(url)] and [new URL(url, base)]; a [TypeError] when the input
      does not parse. *)
  URL_new : string -> option string -> result URL;
  (** [await fetch(new Request(url, init))]: the upstream response, or the
      error of the constructor or of the network. *)
  fetch : Request -> result Response;
  getRootHtml : string
}.

(** ** Computations that fetch and may throw *)

(** A computation takes the list of outbound requests issued so far and
    returns its outcome with the extended list. *)
Definition M (A : Type) : Type := list Request -> result A * list Request.

Definition ret {A : Type} (a : A) : M A := fun log => (Ok a, log).

Definition bind {A B : Type} (m : M A) (k : A -> M B) : M B :=
  fun log =>
    match m log with
    | (Ok a, log') => k a log'
    | (Throw msg, log') => (Throw msg, log')
    end.

Definition lift {A : Type} (r : result A) : M A := fun log => (r, log).

Definition try_catch {A : Type} (m : M A) (handler : string -> M A) : M A :=
  fun log =>
    match m log with
    | (Ok a, log') => (Ok a, log')
    | (Throw msg, log') => handler msg log'
    end.

Definition do_fetch {E : Environment} (r : Request) : M Response :=
  fun log => (fetch r, (log ++ [r])%list).

Declare Scope worker_scope.
Delimit Scope worker_scope with worker.
Notation "x <- m ;; k" := (bind m (fun x => k))
  (at level 61, m at next level, right associativity) : worker_scope.

(** ** The worker *)

Section Worker.

Context {E : Environment}.
Local Open Scope worker_scope.

(** [filterHeaders(headers, filterFunc)] *)
Definition filterHeaders (h : Headers.t) (filterFunc : string -> bool) : Headers.t :=
  Headers.of_list (List.filter (fun e => filterFunc (fst e)) (Headers.entries h)).

(** The arrow function of lines 28 to 30. *)
Definition forwarded (name : string) : bool :=
  negb (Str.startsWith name "cf-") && negb (String.eqb (Str.toLowerCase name) "host").

(** [setNoCacheHeaders(headers)] *)
Definition setNoCacheHeaders (h : Headers.t) : Headers.t :=
  Headers.set h "Cache-Control" "no-store".

(** [setCorsHeaders(headers)] *)
Definition setCorsHeaders (h : Headers.t) : Headers.t :=
  let h := Headers.set h "Access-Control-Allow-Origin" "*" in
  let h := Headers.set h "Access-Control-Allow-Methods" "GET, POST, PUT, DELETE" in
  Headers.set h "Access-Control-Allow-Headers" "*".

(** [jsonResponse(data, status)] for [data = { error: message }]. *)
Definition jsonResponse (message : string) (st : nat) : result Response :=
    Response_new (OfText (JSON.stringify_field "error" message)) (Some st) None
    (Headers.Pairs [("Content-Type", "application/json; charset=utf-8")]).

(** The [Set-Cookie] forwarding of lines 70 to 72 and 110 to 112. *)
Definition forward_set_cookie (upstream : Headers.t) (h : Headers.t) : Headers.t :=
  if Headers.has upstream "Set-Cookie"
  then Headers.set h "Set-Cookie" (to_string (Headers.get upstream "Set-Cookie"))
  else h.

(** [handleRedirect(response, request, actualUrlStr)] *)
Definition handleRedirect (response : Response) (request : Request)
    (actualUrlStr : string) : result Response :=
  result_bind
    (URL_new (to_string (Headers.get (res_headers response) "location"))
       (Some actualUrlStr))
    (fun location =>
       let modifiedLocation := "/" ++ URI.encodeURIComponent (href location) in
       result_bind
         (Response_new (OfBody (res_body response)) (Some (status response))
            (Some (statusText response))
                        (Headers.Pairs
               (Headers.spread (res_headers response) ++ [("Location", modifiedLocation)])%list))
         (fun redirectResponse =>
            Ok (with_headers redirectResponse
                  (forward_set_cookie (res_headers response)
                     (res_headers redirectResponse))))).

(** [handleHtmlContent(response, protocol, host, actualUrlStr)] *)
Definition handleHtmlContent (response : Response) (protocol host actualUrlStr : string)
    : result string :=
  result_bind (Body_text (res_body response))
    (fun originalText =>
       result_bind (URL_new actualUrlStr None)
         (fun target =>
            Ok (replaceRelativePaths originalText protocol host (origin target)))).

Definition is_redirect (st : nat) : bool :=
  existsb (Nat.eqb st) [301; 302; 303; 307; 308].

Definition is_html (h : Headers.t) : bool :=
  match Headers.get h "Content-Type" with
  | Some v => Str.includes v "text/html"
  | None => false
  end.

(** The target of lines 19 to 25. *)
Definition target_of (u : URL) : result string :=
  result_map
    (fun decoded => ensureProtocol decoded (protocol u) ++ search u)
    (URI.decodeURIComponent (Str.replace_first "/" "" (pathname u))).

(** The outbound headers of lines 28 to 38. *)
Definition outbound_headers (inbound : Headers.t) (target_hostname : string) : Headers.t :=
  let newHeaders := filterHeaders inbound forwarded in
  let newHeaders :=
    if Headers.has inbound "cookie"
    then Headers.set newHeaders "Cookie" (to_string (Headers.get inbound "cookie"))
    else newHeaders in
  Headers.set newHeaders "Host" target_hostname.

(** The request of lines 41 to 46. *)
Definition outbound_request (request : Request) (actualUrlStr : string) (target : URL)
    : Request :=
  mkRequest actualUrlStr (method request)
    (outbound_headers (headers request) (hostname target)) (body request) manual.

(** The body of the [try] block of [handleRequest]. *)
Definition handleRequest_try (request : Request) : M Response :=
  u <- lift (URL_new (url request) None) ;;
  if String.eqb (pathname u) "/" then
        lift (Response_new (OfText getRootHtml) None None
            (Headers.Pairs [("Content-Type", "text/html; charset=utf-8")]))
  else
    actualUrlStr <- lift (target_of u) ;;
    target <- lift (URL_new actualUrlStr None) ;;
    let modifiedRequest := outbound_request request actualUrlStr target in
    response <- do_fetch modifiedRequest ;;
    if is_redirect (status response) then
      lift (handleRedirect response request actualUrlStr)
    else
      responseBody <-
        (if is_html (res_headers response)
         then lift (result_map OfText
                      (handleHtmlContent response (protocol u) (host u) actualUrlStr))
         else ret (OfBody (res_body response))) ;;
      modifiedResponse <-
                lift (Response_new responseBody (Some (status response))
                (Some (statusText response))
                (Headers.Object (res_headers response))) ;;
      let h := forward_set_cookie (res_headers response) (res_headers modifiedResponse) in
      let h := setNoCacheHeaders h in
      let h := setCorsHeaders h in
      ret (with_headers modifiedResponse h).

(** [handleRequest(request)]: the [try] block with its [catch]. *)
Definition handleRequest (request : Request) : M Response :=
  try_catch (handleRequest_try request)
    (fun message => lift (jsonResponse message 500)).

(** A run of the handler from an empty list of outbound requests. *)
Definition serve (request : Request) : result Response * list Request :=
  handleRequest request [].

End Worker.

(** ** Notions used to state and prove the properties *)

(** The response of the [catch] block. *)
Definition error_response (message : string) : Response :=
  mkResponse 500 "Internal Server Error"
    [("Content-Type", "application/json; charset=utf-8")]
    (StreamBody (Ok (JSON.stringify_field "error" message))).

(** The JSON text of an object with the one key [error] and a string
    value, given the characters that stand between the quotes of the value:
    a brace, the key in double quotes, a colon, the value in double quotes,
    a brace. *)
Definition error_body (escaped : string) : string :=
  "{" ++ String Chars.dquote
           ("error" ++ String Chars.dquote
              (":" ++ String Chars.dquote (escaped ++ String Chars.dquote "}"))).

(** A text that a JSON string literal holds as it is: no control character,
    no double quote and no backslash. *)
Fixpoint json_plain (s : string) : bool :=
  match s with
  | EmptyString => true
  | String c t =>
      negb (Nat.ltb (Chars.code c) 32) && negb (Ascii.eqb c Chars.dquote) &&
      negb (Ascii.eqb c Chars.backslash) && json_plain t
  end.

(** The character that the letter after a backslash stands for in a JSON
    string literal (ECMA-404, section 9); [u] is read apart. *)
Definition json_escape_letter (e : ascii) : option ascii :=
  if Ascii.eqb e Chars.dquote then Some Chars.dquote
  else if Ascii.eqb e Chars.backslash then Some Chars.backslash
  else if Ascii.eqb e "/" then Some "/"%char
  else if Ascii.eqb e "b" then Some "008"%char
  else if Ascii.eqb e "f" then Some "012"%char
  else if Ascii.eqb e "n" then Some "010"%char
  else if Ascii.eqb e "r" then Some "013"%char
  else if Ascii.eqb e "t" then Some "009"%char
  else None.

(** The number that four hexadecimal digits write. *)
Definition json_hex4 (a b c d : ascii) : option nat :=
  match Chars.hex_value a, Chars.hex_value b, Chars.hex_value c, Chars.hex_value d with
  | Some x, Some y, Some z, Some w => Some (((x * 16 + y) * 16 + z) * 16 + w)
  | _, _, _, _ => None
  end.

(** The text that the characters between the quotes of a JSON string literal
    stand for; [None] where they are not those of a string literal, or where
    [\u] names a code point outside ASCII. *)
Fixpoint json_unescape (s : string) : option string :=
  match s with
  | EmptyString => Some EmptyString
  | String c t =>
      if Ascii.eqb c Chars.backslash then
        match t with
        | EmptyString => None
        | String e t' =>
            if Ascii.eqb e "u" then
              match t' with
              | String h1 (String h2 (String h3 (String h4 t''))) =>
                  match json_hex4 h1 h2 h3 h4 with
                  | Some n =>
                      if Nat.ltb n 128
                      then option_map (String (ascii_of_nat n)) (json_unescape t'')
                      else None
                  | None => None
                  end
              | _ => None
              end
            else
              match json_escape_letter e with
              | Some x => option_map (String x) (json_unescape t')
              | None => None
              end
        end
      else if Nat.ltb (Chars.code c) 32 || Ascii.eqb c Chars.dquote then None
      else option_map (String c) (json_unescape t)
  end.

(** The response [handleRedirect] builds once the new location is known. *)
Definition redirect_response (response : Response) (location : URL) : Response :=
  mkResponse (status response) (statusText response)
    (forward_set_cookie (res_headers response)
       [("Location", "/" ++ URI.encodeURIComponent (href location))])
    (res_body response).

(** What the handler does with the upstream's answer. *)
Definition after_fetch {E : Environment} (request : Request) (u : URL)
    (actualUrlStr : string) (answer : result Response) : M Response :=
  bind (lift answer) (fun response =>
    if is_redirect (status response) then
      lift (handleRedirect response request actualUrlStr)
    else
      bind
        (if is_html (res_headers response)
         then lift (result_map OfText
                      (handleHtmlContent response (protocol u) (host u) actualUrlStr))
         else ret (OfBody (res_body response)))
        (fun responseBody =>
           bind
                          (lift (Response_new responseBody (Some (status response))
                      (Some (statusText response))
                      (Headers.Object (res_headers response))))
             (fun modifiedResponse =>
                ret (with_headers modifiedResponse
                       (setCorsHeaders
                          (setNoCacheHeaders
                             (forward_set_cookie (res_headers response)
                                (res_headers modifiedResponse)))))))).

(** *** The order of header names and the shape of an iteration *)

Module Iteration.

Definition lt_name (a b : string) : Prop := String.compare a b = Lt.

(** The shape of an iteration: one block of entries per name, the names
    lower-case and ascending, each block non-empty and under its own name,
    and a single entry unless the name is [set-cookie]. *)
Definition block_ok (g : string -> list (string * string)) (n : string) : Prop :=
  Str.toLowerCase n = n /\
  g n <> [] /\
  (forall e, In e (g n) -> fst e = n) /\
  (n <> "set-cookie" -> exists v, g n = [(n, v)]).

Definition well_grouped (g : string -> list (string * string)) (names : list string)
    : Prop :=
  StronglySorted lt_name names /\ Forall (block_ok g) names.

(** The pairs with their values normalized: what the constructor of
    [Headers] stores for a sequence of pairs. *)
Definition normalized (l : list (string * string)) : list (string * string) :=
  List.map (fun e => (fst e, Headers.normalize (snd e))) l.

(** A text that does not start with whitespace. *)
Definition headed (s : string) : bool :=
  match s with
  | EmptyString => true
  | String c _ => negb (Headers.is_whitespace c)
  end.


End Iteration.

(** *** Occurrences of the pattern of [replaceRelativePaths] *)

Module Pattern.
Import RegExp.

(** The attribute names of the alternation, the quotes of the class, a text
    that does not start with a slash, and a text without a dollar sign. *)
Definition attribute (a : string) : Prop := In a ["href"; "src"; "action"].
Definition quote_char (c : ascii) : Prop := In c [Chars.dquote; Chars.squote].
Definition no_slash (s : string) : Prop := Str.startsWith s "/" = false.

Definition matched (a : string) (c : ascii) (rest : string) : state :=
  mkState (a ++ "=" ++ String c "/") rest [(1, a ++ "=" ++ String c ""); (2, a)].

Definition no_dollar (s : string) : Prop := Str.mem Chars.dollar s = false.

(** [strip p s] is what follows [p] in [s], when [s] starts with [p]. *)
Fixpoint strip (p s : string) : option string :=
  match p with
  | EmptyString => Some s
  | String c p' =>
      match s with
      | String d t => if Ascii.eqb d c then strip p' t else None
      | EmptyString => None
      end
  end.

(** What the pattern does once the attribute name has been read. *)
Definition after_name (start y : state) : option state :=
  run (Seq (Char "="%char) (Class [Chars.dquote; Chars.squote]))
    (capture 2 start y)
    (fun z =>
       run (Seq (Char Chars.slash) (NegLookahead (Char Chars.slash)))
         (capture 1 start z) Some).

Definition or_else (a b : option state) : option state :=
  match a with
  | Some y => Some y
  | None => b
  end.

End Pattern.

(** ** A scripted environment for the worked examples

        The proxy is served at [https://proxy.example]; three upstream resources
    exist: one that redirects, one that serves an HTML page, and one that
    redirects to a location no URL parser accepts.  The parser also knows
    two requests whose path holds an encoded [?] and an encoded [#], and
    the URLs they lead to. *)

Module Demo.

Definition proxy_url (path : string) (qs : option string) : URL :=
    mkURL ("https://proxy.example" ++ path ++ match qs with Some v => "?" ++ v | None => "" end)
    "https:" "proxy.example" "proxy.example" path qs "https://proxy.example" eq_refl.

Definition upstream_url (path : string) (qs : option string) : URL :=
    mkURL ("https://example.com" ++ path ++ match qs with Some v => "?" ++ v | None => "" end)
    "https:" "example.com" "example.com" path qs "https://example.com" eq_refl.

Definition urls : list (string * option string * URL) :=
  [ ("https://proxy.example/", None, proxy_url "/" None);
    ("https://proxy.example/https%3A%2F%2Fexample.com%2Fa%2Fb", None,
      proxy_url "/https%3A%2F%2Fexample.com%2Fa%2Fb" None);
    ("https://proxy.example/example.com%2Fpage?x=1", None,
      proxy_url "/example.com%2Fpage" (Some "x=1"));
    ("https://proxy.example/%E0%A4%A", None, proxy_url "/%E0%A4%A" None);
    ("https://proxy.example/%20", None, proxy_url "/%20" None);
    ("https://proxy.example/example.com%2Fmoved", None,
      proxy_url "/example.com%2Fmoved" None);
    ("https://example.com/moved", None, upstream_url "/moved" None);
    ("https://example.com/a/b", None, upstream_url "/a/b" None);
        ("https://example.com/page?x=1", None, upstream_url "/page" (Some "x=1"));
    ("/login", Some "https://example.com/a/b", upstream_url "/login" None);
    ("https://proxy.example/example.com%2Fp%3Fz%3D1", None,
      proxy_url "/example.com%2Fp%3Fz%3D1" None);
    ("https://example.com/p?z=1", None, upstream_url "/p" (Some "z=1"));
    ("https://proxy.example/example.com%2Fp%23top?x=1", None,
      proxy_url "/example.com%2Fp%23top" (Some "x=1"));
    ("https://example.com/p#top?x=1", None,
      mkURL "https://example.com/p#top?x=1" "https:" "example.com" "example.com"
        "/p" None "https://example.com" eq_refl) ].

Definition same_base (a b : option string) : bool :=
  match a, b with
  | None, None => true
  | Some x, Some y => String.eqb x y
  | _, _ => false
  end.

Fixpoint parse (table : list (string * option string * URL)) (s : string)
    (base : option string) : result URL :=
  match table with
  | [] => Throw "Invalid URL"
  | (s', base', u) :: rest =>
      if String.eqb s s' && same_base base base' then Ok u else parse rest s base
  end.

Definition image_tag (src : string) : string :=
  "<img src=" ++ String Chars.dquote (src ++ String Chars.dquote ">").

Definition upstream (r : Request) : result Response :=
  if String.eqb (url r) "https://example.com/a/b" then
    Ok (mkResponse 302 "Found"
          [("Location", "/login"); ("Set-Cookie", "sid=1"); ("Server", "demo")]
          (StreamBody (Ok "")))
  else if String.eqb (url r) "https://example.com/page?x=1" then
    Ok (mkResponse 200 "OK"
          [("Content-Type", "text/html; charset=utf-8"); ("CF-Ray", "1")]
          (StreamBody (Ok (image_tag "/logo.png"))))
  else if String.eqb (url r) "https://example.com/moved" then
    Ok (mkResponse 301 "Moved Permanently" [("Location", "http://[")] NullBody)
  else Throw "Network connection lost.".

Definition env : Environment :=
  {| URL_new := parse urls; fetch := upstream; getRootHtml := "<!DOCTYPE html>" |}.

Definition inbound (u : string) (m : string) (h : Headers.t) : Request :=
  mkRequest u m h NullBody follow.

Definition root_request : Request := inbound "https://proxy.example/" "POST" [].
Definition redirect_request : Request :=
  inbound "https://proxy.example/https%3A%2F%2Fexample.com%2Fa%2Fb" "GET"
    [("Host", "proxy.example"); ("Cookie", "a=1"); ("CF-Connecting-IP", "192.0.2.1")].
Definition page_request : Request :=
  inbound "https://proxy.example/example.com%2Fpage?x=1" "GET"
    [("Host", "proxy.example"); ("Accept", "text/html")].
Definition malformed_request : Request :=
  inbound "https://proxy.example/%E0%A4%A" "GET" [].
Definition unparsable_request : Request :=
  inbound "https://proxy.example/%20" "GET" [].
Definition moved_request : Request :=
  inbound "https://proxy.example/example.com%2Fmoved" "GET" [].
Definition embedded_query_request : Request :=
  inbound "https://proxy.example/example.com%2Fp%3Fz%3D1" "GET" [].
Definition fragment_request : Request :=
  inbound "https://proxy.example/example.com%2Fp%23top?x=1" "GET" [].


End Demo.

(** ** Notions for the further properties *)

(** A text in well-formed UTF-8: ASCII bytes and well-formed sequences of two
    to four octets. *)
Inductive well_formed : string -> Prop :=
| wf_empty : well_formed ""
| wf_ascii (c : ascii) (s : string) :
    Chars.code c < 128 -> well_formed s -> well_formed (String c s)
| wf_sequence (octets : list nat) (s : string) :
    URI.valid_utf8 octets = true -> well_formed s ->
    well_formed (URI.bytes_to_string octets ++ s).

(** The text starts with two hexadecimal digits. *)
Definition two_hex (s : string) : bool :=
  match s with
  | String a (String b _) =>
      match Chars.hex_value a, Chars.hex_value b with
      | Some _, Some _ => true
      | _, _ => false
      end
  | _ => false
  end.

(** The header names the handler writes on a proxied response. *)
Definition forced_names : list string :=
  ["set-cookie"; "cache-control"; "access-control-allow-origin";
   "access-control-allow-methods"; "access-control-allow-headers"].

(** The combined value of a header, as [get] makes it from the values. *)
Definition joined (vs : list string) : option string :=
      match vs with
  | [] => None
  | v :: rest => Some (String.concat ", " (v :: rest))
  end.

(** What a [Headers] object built from the iteration of [h] holds under
    [name]: the values of [set-cookie] are iterated, and so normalized, one
    by one; the values of any other name are iterated as one combined value,
    which is normalized as a whole. *)
Definition rebuilt_value (h : Headers.t) (name : string) : option string :=
  if String.eqb (Str.toLowerCase name) "set-cookie"
  then joined (List.map Headers.normalize (Headers.values h name))
  else option_map Headers.normalize (Headers.get h name).

(** A text without a single or a double quote. *)
Definition no_quote (s : string) : Prop :=
  Str.mem Chars.dquote s = false /\ Str.mem Chars.squote s = false.

(** The first letters of the attribute names. *)
Definition attribute_start (m : ascii) : bool :=
  existsb (Ascii.eqb m) ["h"; "s"; "a"]%char.

(** A text of ASCII bytes only. *)
Fixpoint is_ascii (s : string) : bool :=
  match s with
  | EmptyString => true
  | String c t => Nat.ltb (Chars.code c) 128 && is_ascii t
  end.

(** ** A second scripted environment

        Behind the same proxy: a JSON resource that sets two cookies, a page, a
        cached page answered with 304, a redirect without a location, a
    resource that answers with the status 999, and one whose second
    [Set-Cookie] is empty. *)

Module Scenario.

Definition urls : list (string * option string * URL) :=
  [ ("https://proxy.example/example.com%2Fdata", None,
      Demo.proxy_url "/example.com%2Fdata" None);
    ("https://example.com/data", None, Demo.upstream_url "/data" None);
    ("https://proxy.example/example.com%2Fhome", None,
      Demo.proxy_url "/example.com%2Fhome" None);
    ("https://example.com/home", None, Demo.upstream_url "/home" None);
    ("https://proxy.example/example.com%2Fcached", None,
      Demo.proxy_url "/example.com%2Fcached" None);
    ("https://example.com/cached", None, Demo.upstream_url "/cached" None);
    ("https://proxy.example/example.com%2Fgone", None,
      Demo.proxy_url "/example.com%2Fgone" None);
    ("https://example.com/gone", None, Demo.upstream_url "/gone" None);
        ("null", Some "https://example.com/gone", Demo.upstream_url "/null" None);
    ("https://proxy.example/100%", None, Demo.proxy_url "/100%" None);
        ("https://proxy.example/example.com%2Fdenied", None,
      Demo.proxy_url "/example.com%2Fdenied" None);
    ("https://example.com/denied", None, Demo.upstream_url "/denied" None);
    ("https://proxy.example/example.com%2Fjar", None,
      Demo.proxy_url "/example.com%2Fjar" None);
    ("https://example.com/jar", None, Demo.upstream_url "/jar" None) ].

Definition data_response : Response :=
  mkResponse 200 "OK"
    [("Content-Type", "application/json"); ("ETag", "abc"); ("Set-Cookie", "a=1");
     ("Set-Cookie", "b=2"); ("Cache-Control", "max-age=60")]
    (StreamBody (Ok "{}")).

Definition home_response : Response :=
  mkResponse 200 "OK"
    [("Content-Type", "text/html"); ("X-Frame-Options", "DENY")]
    (StreamBody (Ok (Demo.image_tag "/logo.png"))).

Definition cached_response : Response :=
  mkResponse 304 "Not Modified" [("Content-Type", "text/html")] NullBody.

Definition gone_response : Response :=
  mkResponse 301 "Moved Permanently" [("Server", "demo")] NullBody.

Definition denied_response : Response :=
  mkResponse 999 "Request denied" [("Content-Type", "text/html")]
    (StreamBody (Ok "<p>denied</p>")).

Definition jar_response : Response :=
  mkResponse 200 "OK"
    [("Content-Type", "text/plain"); ("Set-Cookie", "a=1"); ("Set-Cookie", "")]
    (StreamBody (Ok "ok")).



Definition upstream (r : Request) : result Response :=
  if String.eqb (url r) "https://example.com/data" then Ok data_response
  else if String.eqb (url r) "https://example.com/home" then Ok home_response
  else if String.eqb (url r) "https://example.com/cached" then Ok cached_response
    else if String.eqb (url r) "https://example.com/gone" then Ok gone_response
    else if String.eqb (url r) "https://example.com/denied" then Ok denied_response
  else if String.eqb (url r) "https://example.com/jar" then Ok jar_response
  else Throw "Network connection lost.".

Definition env : Environment :=
  {| URL_new := Demo.parse urls; fetch := upstream; getRootHtml := "<!DOCTYPE html>" |}.

Definition browser_headers : Headers.t :=
  [("Host", "proxy.example"); ("Accept", "application/json"); ("Cookie", "sid=7");
   ("CF-Ray", "1")].

(** Headers in which two names occur twice, the second time with an empty
    value. *)
Definition repeated_headers : Headers.t :=
  [("Host", "proxy.example"); ("X-A", "1"); ("x-a", ""); ("Cookie", "a=1");
   ("cookie", "")].


Definition data_request : Request :=
  Demo.inbound "https://proxy.example/example.com%2Fdata" "GET" browser_headers.
Definition home_request : Request :=
  Demo.inbound "https://proxy.example/example.com%2Fhome" "GET" browser_headers.
Definition cached_request : Request :=
  Demo.inbound "https://proxy.example/example.com%2Fcached" "GET" browser_headers.
Definition gone_request : Request :=
  Demo.inbound "https://proxy.example/example.com%2Fgone" "GET" browser_headers.
Definition percent_request : Request :=
  Demo.inbound "https://proxy.example/100%" "GET" browser_headers.
Definition denied_request : Request :=
  Demo.inbound "https://proxy.example/example.com%2Fdenied" "GET" browser_headers.
Definition jar_request : Request :=
  Demo.inbound "https://proxy.example/example.com%2Fjar" "GET" browser_headers.



End Scenario.

(** * Properties *)

(** ** Worked examples of the library functions *)

Example encode_example :
  URI.encodeURIComponent "https://example.com/login" = "https%3A%2F%2Fexample.com%2Flogin".
Proof. reflexivity. Qed.

Example decode_example :
  URI.decodeURIComponent "https%3A%2F%2Fexample.com%2Fa%20b%C3%A9" =
  Ok ("https://example.com/a b" ++ URI.bytes_to_string [195; 169]).
Proof. reflexivity. Qed.

Example decode_truncated : URI.decodeURIComponent "a%2" = Throw URI.URIError.
Proof. reflexivity. Qed.

Example decode_overlong : URI.decodeURIComponent "%C0%80" = Throw URI.URIError.
Proof. reflexivity. Qed.

(** ** Strings *)

Lemma append_nil_r (s : string) : s ++ "" = s.
Proof. induction s as [|c s IH]; simpl; [reflexivity | now rewrite IH]. Qed.

Lemma append_assoc (a b c : string) : (a ++ b) ++ c = a ++ (b ++ c).
Proof. induction a as [|x a IH]; simpl; [reflexivity | now rewrite IH]. Qed.

Lemma length_append (a b : string) :
  String.length (a ++ b) = String.length a + String.length b.
Proof. induction a as [|x a IH]; simpl; [reflexivity | now rewrite IH]. Qed.

Lemma drop_append (a b : string) : Str.drop (String.length a) (a ++ b) = b.
Proof. induction a as [|x a IH]; simpl; [now destruct b | exact IH]. Qed.

Lemma mem_append (c : ascii) (a b : string) :
  Str.mem c (a ++ b) = Str.mem c a || Str.mem c b.
Proof.
  induction a as [|d a IH]; simpl; [reflexivity|]. now rewrite IH, orb_assoc.
Qed.


(** ** Header lists *)

Module HeadersFacts.
Import Headers Iteration.


(** *** Normalization of values *)

Lemma strip_leading_headed (s : string) : headed (strip_leading s) = true.
Proof.
  induction s as [|c s IH]; [reflexivity|]. cbn [strip_leading].
  destruct (is_whitespace c) eqn:Hc; [exact IH|]. cbn [headed]. now rewrite Hc.
Qed.

Lemma headed_strip_leading (s : string) : headed s = true -> strip_leading s = s.
Proof.
  destruct s as [|c s]; [reflexivity|]. cbn [headed strip_leading].
  now destruct (is_whitespace c).
Qed.

Lemma headed_strip_trailing (s : string) :
  headed s = true -> headed (strip_trailing s) = true.
Proof.
  destruct s as [|c s]; [reflexivity|]. cbn [headed strip_trailing]. intros Hc.
  destruct (strip_trailing s); [|exact Hc].
  apply negb_true_iff in Hc. rewrite Hc. cbn [headed]. now rewrite Hc.
Qed.

Lemma strip_trailing_idem (s : string) :
  strip_trailing (strip_trailing s) = strip_trailing s.
Proof.
  induction s as [|c s IH]; [reflexivity|]. cbn [strip_trailing].
  destruct (strip_trailing s) as [|d kept] eqn:Hs.
  - destruct (is_whitespace c) eqn:Hc; [reflexivity|].
    cbn [strip_trailing]. now rewrite Hc.
  - change (strip_trailing (String c (String d kept)))
      with (match strip_trailing (String d kept) with
            | EmptyString => if is_whitespace c then EmptyString else String c EmptyString
            | k => String c k
            end).
    now rewrite IH.
Qed.

(** Normalizing a normalized value changes nothing. *)
Lemma normalize_idem (v : string) : normalize (normalize v) = normalize v.
Proof.
  unfold normalize.
  rewrite (headed_strip_leading (strip_trailing (strip_leading v)))
    by (apply headed_strip_trailing, strip_leading_headed).
  apply strip_trailing_idem.
Qed.

Lemma strip_trailing_plain (s : string) :
  (forall c, is_whitespace c = true -> Str.mem c s = false) -> strip_trailing s = s.
Proof.
  induction s as [|d s IH]; intros H; [reflexivity|]. cbn [strip_trailing].
  rewrite IH.
  - destruct s; [|reflexivity].
    destruct (is_whitespace d) eqn:Hd; [|reflexivity].
    specialize (H d Hd). cbn [Str.mem] in H. now rewrite Ascii.eqb_refl in H.
  - intros c Hc. specialize (H c Hc). cbn [Str.mem] in H.
    now apply orb_false_iff in H.
Qed.

(** A value without whitespace is its own normalization. *)
Lemma normalize_plain (s : string) :
  (forall c, is_whitespace c = true -> Str.mem c s = false) -> normalize s = s.
Proof.
  intros H. unfold normalize. rewrite headed_strip_leading; [now apply strip_trailing_plain|].
  destruct s as [|d s]; [reflexivity|]. cbn [headed].
  destruct (is_whitespace d) eqn:Hd; [|reflexivity].
  specialize (H d Hd). cbn [Str.mem] in H. now rewrite Ascii.eqb_refl in H.
Qed.



Lemma normalized_idem (l : list (string * string)) :
  normalized (normalized l) = normalized l.
Proof.
  unfold normalized. rewrite map_map. apply map_ext. intros [n v]. cbn [fst snd].
  now rewrite normalize_idem.
Qed.

Lemma of_list_from (init acc : list (string * string)) :
  List.fold_left (fun h e => append h (fst e) (snd e)) init acc
  = (acc ++ normalized init)%list.
Proof.
  revert acc; induction init as [|[n v] init IH]; intros acc; simpl.
  - now rewrite app_nil_r.
  - rewrite IH. unfold append. now rewrite <- app_assoc.
Qed.

(** The constructor keeps the pairs in their order, each with its value
    normalized. *)
Lemma of_list_normalized (init : list (string * string)) : of_list init = normalized init.
Proof. unfold of_list. now rewrite of_list_from. Qed.

(** *** Lookups *)

Lemma name_eqb_refl (a : string) : name_eqb a a = true.
Proof. unfold name_eqb. apply String.eqb_refl. Qed.

Lemma name_eqb_trans (a b c : string) :
  name_eqb a b = true -> name_eqb b c = name_eqb a c.
Proof.
  unfold name_eqb. intros H. apply String.eqb_eq in H. now rewrite H.
Qed.

Lemma values_filter_other (h : t) (name other : string) :
  name_eqb other name = false ->
  values (List.filter (fun e => negb (name_eqb (fst e) other)) h) name = values h name.
Proof.
  intros Hne. unfold values. induction h as [|[n v] h IH]; simpl; [reflexivity|].
  destruct (name_eqb n other) eqn:Hn; simpl.
  - rewrite (name_eqb_trans _ _ _ Hn) in Hne. now rewrite Hne.
  - destruct (name_eqb n name); simpl; now rewrite IH.
Qed.

Lemma values_filter_same (h : t) (name : string) :
  values (List.filter (fun e => negb (name_eqb (fst e) name)) h) name = [].
Proof.
  unfold values. induction h as [|[n v] h IH]; simpl; [reflexivity|].
  destruct (name_eqb n name) eqn:Hn; simpl; [exact IH|].
  now rewrite Hn.
Qed.

Lemma values_put_same (h : t) (name value : string) :
  values (put h name value) name = [value].
Proof.
  induction h as [|[n v] h IH]; simpl.
  - unfold values; simpl. now rewrite name_eqb_refl.
  - destruct (name_eqb n name) eqn:Hn.
    + change (values ((n, value) :: ?l) name)
        with (List.map snd (List.filter (fun e => name_eqb (fst e) name) ((n, value) :: l))).
      simpl. rewrite Hn. simpl. f_equal. apply values_filter_same.
    + change (values ((n, v) :: ?l) name)
        with (List.map snd (List.filter (fun e => name_eqb (fst e) name) ((n, v) :: l))).
      simpl. rewrite Hn. exact IH.
Qed.

Lemma values_put_other (h : t) (name other value : string) :
  name_eqb other name = false ->
  values (put h other value) name = values h name.
Proof.
  intros Hne. induction h as [|[n v] h IH]; simpl.
  - unfold values; simpl. now rewrite Hne.
  - destruct (name_eqb n other) eqn:Hn.
    + unfold values at 1 2. simpl.
      assert (Hn' : name_eqb n name = false)
        by (rewrite <- (name_eqb_trans _ _ _ Hn); exact Hne).
      rewrite Hn'. apply values_filter_other. exact Hne.
    + unfold values at 1 2. simpl.
      destruct (name_eqb n name); simpl; [f_equal|]; exact IH.
Qed.

(** After [set], the header has exactly the value that was set, normalized. *)
Lemma values_set_same (h : t) (name value : string) :
  values (set h name value) name = [normalize value].
Proof. apply values_put_same. Qed.

(** [set] leaves every other header as it was. *)
Lemma values_set_other (h : t) (name other value : string) :
  name_eqb other name = false ->
  values (set h other value) name = values h name.
Proof. apply values_put_other. Qed.

Lemma get_set_same (h : t) (name value : string) :
  get (set h name value) name = Some (normalize value).
Proof. unfold get. now rewrite values_set_same. Qed.

Lemma get_set_other (h : t) (name other value : string) :
  name_eqb other name = false ->
  get (set h other value) name = get h name.
Proof. intros Hne. unfold get. now rewrite values_set_other. Qed.

Lemma has_values (h : t) (name : string) :
  has h name = negb (match values h name with [] => true | _ => false end).
Proof.
  unfold has, values. induction h as [|[n v] h IH]; simpl; [reflexivity|].
  destruct (name_eqb n name); simpl; [reflexivity | exact IH].
Qed.

Lemma has_get (h : t) (name : string) :
  has h name = match get h name with Some _ => true | None => false end.
Proof. rewrite has_values. unfold get. now destruct (values h name). Qed.

Lemma has_set_same (h : t) (name value : string) : has (set h name value) name = true.
Proof. now rewrite has_get, get_set_same. Qed.

Lemma has_set_other (h : t) (name other value : string) :
  name_eqb other name = false ->
  has (set h other value) name = has h name.
Proof. intros Hne. now rewrite !has_values, values_set_other. Qed.

Lemma name_eqb_right (n a b : string) :
  name_eqb a b = true -> name_eqb n a = name_eqb n b.
Proof.
  unfold name_eqb. intros H. apply String.eqb_eq in H. now rewrite H.
Qed.

Lemma has_name_eqb (h : t) (a b : string) :
  name_eqb a b = true -> has h a = has h b.
Proof.
  intros Hab. unfold has. induction h as [|[n v] h IH]; simpl; [reflexivity|].
  now rewrite IH, (name_eqb_right n a b Hab).
Qed.

End HeadersFacts.

(** ** The alphabet of [encodeURIComponent] *)

Module AlphabetFacts.
Import URI.

Lemma code_bound (c : ascii) : Chars.code c < 256.
Proof. apply nat_ascii_bounded. Qed.

Lemma hex_digit_unreserved (n : nat) : n < 16 -> unreserved (Chars.hex_digit n) = true.
Proof. intros H. do 16 (destruct n as [|n]; [reflexivity|]). lia. Qed.

(** The output of [encodeURIComponent] consists of unreserved characters and
    percent signs: no delimiter of a URL survives. *)
Lemma encode_alphabet (s : string) (c : ascii) :
  Str.mem c (encodeURIComponent s) = true -> unreserved c = true \/ c = Chars.percent.
Proof.
  induction s as [|d s IH]; [discriminate|].
  cbn [encodeURIComponent]. destruct (unreserved d) eqn:Hd.
  - cbn [Str.mem]. intros H. apply orb_true_iff in H. destruct H as [H|H]; [|auto].
    apply Ascii.eqb_eq in H. subst. auto.
  - unfold escape. cbn [append Str.mem]. intros H.
    pose proof (code_bound d) as Hb.
    repeat (apply orb_true_iff in H; destruct H as [H|H]);
      [right | left | left | auto]; apply Ascii.eqb_eq in H; subst c.
    + reflexivity.
    + apply hex_digit_unreserved. apply Nat.Div0.div_lt_upper_bound. lia.
    + apply hex_digit_unreserved. apply Nat.mod_upper_bound. lia.
Qed.

Lemma whitespace_cases (c : ascii) :
  Headers.is_whitespace c = true ->
  c = "009"%char \/ c = "010"%char \/ c = "013"%char \/ c = " "%char.
Proof.
  unfold Headers.is_whitespace. cbn [existsb]. rewrite !orb_true_iff, !Nat.eqb_eq.
  intros H. rewrite <- (ascii_nat_embedding c). unfold Chars.code in H.
  destruct H as [H|[H|[H|[H|H]]]]; [rewrite H .. | discriminate H]; auto.
Qed.

(** The value that [handleRedirect] gives to [Location] has no whitespace:
    it is stored as it is. *)
Lemma location_normalized (s : string) :
  Headers.normalize ("/" ++ encodeURIComponent s) = "/" ++ encodeURIComponent s.
Proof.
  apply HeadersFacts.normalize_plain. intros c Hc.
  change ("/" ++ encodeURIComponent s) with (String "/" (encodeURIComponent s)).
  cbn [Str.mem].
  destruct (Str.mem c (encodeURIComponent s)) eqn:Hmem.
  - exfalso. apply whitespace_cases in Hc.
    destruct (encode_alphabet s c Hmem) as [H|H];
            destruct Hc as [Hc|[Hc|[Hc|Hc]]]; subst c; discriminate H.
  - rewrite orb_false_r. apply whitespace_cases in Hc.
        destruct Hc as [Hc|[Hc|[Hc|Hc]]]; subst c; reflexivity.
Qed.

End AlphabetFacts.

(** ** The handler, step by step *)


Section HandlerFacts.

Context {E : Environment}.

Lemma jsonResponse_500 (message : string) :
  jsonResponse message 500 = Ok (error_response message).
Proof. reflexivity. Qed.

Lemma handleRequest_catch (request : Request) (log : list Request) :
  handleRequest request log =
  match handleRequest_try request log with
  | (Ok r, log') => (Ok r, log')
  | (Throw message, log') => (Ok (error_response message), log')
  end.
Proof.
  unfold handleRequest, try_catch, lift.
  destruct (handleRequest_try request log) as [[r|message] log']; reflexivity.
Qed.

Lemma is_redirect_iff (st : nat) :
  is_redirect st = true <-> In st [301; 302; 303; 307; 308].
Proof.
  unfold is_redirect. rewrite existsb_exists. split.
  - intros [x [Hin Hx]]. apply Nat.eqb_eq in Hx. now subst.
  - intros Hin. exists st. split; [exact Hin | apply Nat.eqb_refl].
Qed.

Lemma redirect_status_ok (st : nat) :
  is_redirect st = true ->
  negb (Nat.leb 200 st && Nat.leb st 599) = false /\ null_body_status st = false.
Proof.
  intros H. apply is_redirect_iff in H. simpl in H.
  repeat (destruct H as [H|H]; [subst st; split; reflexivity|]). contradiction.
Qed.

Lemma handleRedirect_ok (response : Response) (request : Request)
    (actualUrlStr : string) (location : URL) :
  is_redirect (status response) = true ->
  URL_new (to_string (Headers.get (res_headers response) "location"))
    (Some actualUrlStr) = Ok location ->
  handleRedirect response request actualUrlStr = Ok (redirect_response response location).
Proof.
  intros Hst Hloc. unfold handleRedirect. rewrite Hloc. simpl.
  destruct (redirect_status_ok _ Hst) as [Hrange Hnull].
    unfold Response_new, redirect_response.
  rewrite Hrange, Hnull. cbn [Headers.new Headers.spread app].
  rewrite HeadersFacts.of_list_normalized. unfold Iteration.normalized.
      cbn [List.map fst snd].
  change (String "/" (URI.encodeURIComponent (href location)))
    with ("/" ++ URI.encodeURIComponent (href location)).
  rewrite AlphabetFacts.location_normalized.
  destruct (res_body response); reflexivity.
Qed.

Section Proxied.

Variables (request : Request) (u : URL) (actualUrlStr : string) (target : URL).
Hypothesis Hurl : URL_new (url request) None = Ok u.
Hypothesis Hpath : pathname u <> "/".
Hypothesis Htarget : target_of u = Ok actualUrlStr.
Hypothesis Hparse : URL_new actualUrlStr None = Ok target.

Let out : Request := outbound_request request actualUrlStr target.

Lemma after_fetch_log (answer : result Response) (log : list Request) :
  snd (after_fetch request u actualUrlStr answer log) = log.
Proof.
  unfold after_fetch, bind, lift, ret.
  destruct answer as [response|message]; simpl; [|reflexivity].
  destruct (is_redirect (status response)); [reflexivity|].
  destruct (is_html (res_headers response)).
  - destruct (result_map OfText _) as [b|m]; [|reflexivity].
    destruct (Response_new _ _ _ _); reflexivity.
  - destruct (Response_new _ _ _ _); reflexivity.
Qed.

(** A proxied request reaches [fetch] exactly once, with [out]. *)
Lemma handleRequest_try_proxied (log : list Request) :
  handleRequest_try request log
  = after_fetch request u actualUrlStr (fetch out) (log ++ [out])%list.
Proof.
  unfold handleRequest_try, bind, lift. rewrite Hurl.
  destruct (String.eqb_spec (pathname u) "/") as [Heq|_]; [contradiction|].
  rewrite Htarget, Hparse. reflexivity.
Qed.

Lemma handleRequest_proxied_log (log : list Request) :
  snd (handleRequest request log) = (log ++ [out])%list.
Proof.
  rewrite handleRequest_catch, handleRequest_try_proxied.
  pose proof (after_fetch_log (fetch out) (log ++ [out])%list) as Hlog.
  destruct (after_fetch request u actualUrlStr (fetch out) (log ++ [out])%list)
    as [[r|m] log']; exact Hlog.
Qed.

End Proxied.

End HandlerFacts.

(** ** The landing page *)

(** C5. A request whose path is exactly [/] is answered, whatever its method,
    with status 200 and [Content-Type: text/html; charset=utf-8], and the
    list of outbound requests is left as it was: nothing is fetched. *)
Theorem root_path_serves_landing_page {E : Environment}
    (request : Request) (u : URL) (log : list Request) :
  URL_new (url request) None = Ok u ->
  pathname u = "/" ->
  exists r,
    handleRequest request log = (Ok r, log) /\
    status r = 200 /\
    Headers.get (res_headers r) "Content-Type" = Some "text/html; charset=utf-8".
Proof.
  intros Hurl Hpath.
    exists (mkResponse 200 "OK" [("Content-Type", "text/html; charset=utf-8")]
            (StreamBody (Ok getRootHtml))).
  split; [|split; reflexivity].
  rewrite handleRequest_catch.
  unfold handleRequest_try, bind, lift. rewrite Hurl, Hpath. reflexivity.
Qed.

Lemma root_path_serves_landing_page_witness :
  exists r,
    @handleRequest Demo.env Demo.root_request [] = (Ok r, []) /\
    status r = 200 /\
    Headers.get (res_headers r) "Content-Type" = Some "text/html; charset=utf-8".
Proof.
  apply (@root_path_serves_landing_page Demo.env Demo.root_request
           (Demo.proxy_url "/" None) []); reflexivity.
Defined.

(** ** Protocol normalization *)

(** C6. [ensureProtocol] returns a target that starts with [http://] or
    [https://] unchanged, and any other target prefixed with the inbound
    protocol and [//]. *)
Theorem ensureProtocol_normalizes (target defaultProtocol : string) :
  (Str.startsWith target "http://" = true \/ Str.startsWith target "https://" = true ->
   ensureProtocol target defaultProtocol = target) /\
  (Str.startsWith target "http://" = false ->
   Str.startsWith target "https://" = false ->
   ensureProtocol target defaultProtocol = defaultProtocol ++ "//" ++ target).
Proof.
  unfold ensureProtocol. split.
  - intros [H|H]; rewrite H; [reflexivity | now rewrite orb_true_r].
  - intros H1 H2. now rewrite H1, H2.
Qed.

Lemma ensureProtocol_normalizes_witness :
  ensureProtocol "http://example.com/a" "https:" = "http://example.com/a" /\
  ensureProtocol "example.com/a" "https:" = "https://example.com/a".
Proof.
  split.
  - apply (proj1 (ensureProtocol_normalizes "http://example.com/a" "https:")).
    left. reflexivity.
  - apply (proj2 (ensureProtocol_normalizes "example.com/a" "https:")); reflexivity.
Defined.

(** ** The outbound request *)

(** C7, as the code has it.  The URL of the outbound request is the
    normalized target followed by [?] and the inbound query string, once, and
    by nothing when the inbound query is absent or empty; in that case the
    URL has no question mark at all, provided the decoded path and the
    inbound protocol have none. *)
Theorem query_string_appended_once {E : Environment}
    (request : Request) (u : URL) (decoded : string) (target : URL) :
  URL_new (url request) None = Ok u ->
  pathname u <> "/" ->
  URI.decodeURIComponent (Str.replace_first "/" "" (pathname u)) = Ok decoded ->
  URL_new (ensureProtocol decoded (protocol u) ++ search u) None = Ok target ->
  exists out,
    snd (serve request) = [out] /\
    (forall Q, query u = Some Q -> Q <> "" ->
       url out = ensureProtocol decoded (protocol u) ++ "?" ++ Q) /\
    (query u = None \/ query u = Some "" ->
       url out = ensureProtocol decoded (protocol u)) /\
    (query u = None \/ query u = Some "" ->
     Str.mem "?" decoded = false ->
     Str.mem "?" (protocol u) = false ->
     Str.mem "?" (url out) = false).
Proof.
  intros Hurl Hpath Hdec Hparse.
  assert (Htarget : target_of u = Ok (ensureProtocol decoded (protocol u) ++ search u))
    by (unfold target_of; now rewrite Hdec).
  exists (outbound_request request (ensureProtocol decoded (protocol u) ++ search u) target).
  assert (Hempty : query u = None \/ query u = Some "" ->
            url (outbound_request request
                   (ensureProtocol decoded (protocol u) ++ search u) target)
            = ensureProtocol decoded (protocol u)).
  { intros [HQ|HQ]; simpl; unfold search; rewrite HQ; apply append_nil_r. }
  split; [|split; [|split]].
  - unfold serve.
    now rewrite (handleRequest_proxied_log request u _ target Hurl Hpath Htarget Hparse).
  - intros Q HQ Hne. simpl. unfold search. rewrite HQ.
    destruct Q; [contradiction | reflexivity].
  - exact Hempty.
  - intros HQ Hdecoded Hprotocol. rewrite (Hempty HQ). unfold ensureProtocol.
    destruct (Str.startsWith decoded "http://" || Str.startsWith decoded "https://");
      [exact Hdecoded|].
    now rewrite !mem_append, Hprotocol, Hdecoded.
Qed.

Lemma query_string_appended_once_witness :
  exists out,
    snd (@serve Demo.env Demo.page_request) = [out] /\
    url out = "https://example.com/page" ++ "?" ++ "x=1".
Proof.
  destruct (@query_string_appended_once Demo.env Demo.page_request
              (Demo.proxy_url "/example.com%2Fpage" (Some "x=1"))
              "example.com/page"
              (Demo.upstream_url "/page" (Some "x=1")))
    as [out [Hlog [Hquery _]]];
    [reflexivity | discriminate | reflexivity | reflexivity |].
  exists out. split; [exact Hlog|].
  apply (Hquery "x=1"); [reflexivity | discriminate].
Defined.

(** Against C7 as it is stated.  A path that decodes to a target with a
    query of its own gives an outbound URL with a query although the inbound
    request has none; and after a decoded [#] the inbound query falls into
    the fragment, so that the URL which is fetched has no query. *)
Lemma outbound_query_is_not_the_inbound_query :
  (exists u out target,
     @URL_new Demo.env (url Demo.embedded_query_request) None = Ok u /\
     query u = None /\
     snd (@serve Demo.env Demo.embedded_query_request) = [out] /\
     url out = "https://example.com/p?z=1" /\
     @URL_new Demo.env (url out) None = Ok target /\
     query target = Some "z=1") /\
  (exists u out target,
     @URL_new Demo.env (url Demo.fragment_request) None = Ok u /\
     query u = Some "x=1" /\
     snd (@serve Demo.env Demo.fragment_request) = [out] /\
     url out = "https://example.com/p#top?x=1" /\
     @URL_new Demo.env (url out) None = Ok target /\
     query target = None).
Proof.
  split.
  - do 3 eexists. split; [reflexivity|]. split; [reflexivity|].
    split; [vm_compute; reflexivity|]. repeat split.
  - do 3 eexists. split; [reflexivity|]. split; [reflexivity|].
    split; [vm_compute; reflexivity|]. repeat split.
Qed.

(** C9. On the proxied path the one outbound request is addressed to the
    target and its [Host] header is the [hostname] of the target URL. *)
Theorem outbound_host_is_target_hostname {E : Environment}
    (request : Request) (u : URL) (actualUrlStr : string) (target : URL) :
  URL_new (url request) None = Ok u ->
  pathname u <> "/" ->
  target_of u = Ok actualUrlStr ->
  URL_new actualUrlStr None = Ok target ->
  exists out,
    snd (serve request) = [out] /\
    url out = actualUrlStr /\
    Headers.get (headers out) "Host" = Some (hostname target).
Proof.
  intros Hurl Hpath Htarget Hparse.
  exists (outbound_request request actualUrlStr target).
  split; [|split].
  - unfold serve.
    now rewrite (handleRequest_proxied_log request u _ target Hurl Hpath Htarget Hparse).
  - reflexivity.
    - simpl. unfold outbound_headers.
    rewrite HeadersFacts.get_set_same. now rewrite hostname_normalized.
Qed.

Lemma outbound_host_is_target_hostname_witness :
  exists out,
    snd (@serve Demo.env Demo.redirect_request) = [out] /\
    url out = "https://example.com/a/b" /\
    Headers.get (headers out) "Host" = Some "example.com".
Proof.
  apply (@outbound_host_is_target_hostname Demo.env Demo.redirect_request
           (Demo.proxy_url "/https%3A%2F%2Fexample.com%2Fa%2Fb" None)
           "https://example.com/a/b"
           (Demo.upstream_url "/a/b" None));
    [reflexivity | discriminate | reflexivity | reflexivity].
Defined.

(** ** Errors *)

Lemma json_plain_escape (s : string) : json_plain s = true -> JSON.escape s = s.
Proof.
  induction s as [|c s IH]; [reflexivity|]. cbn [json_plain JSON.escape]. intros H.
  apply andb_true_iff in H. destruct H as [H Hs].
  apply andb_true_iff in H. destruct H as [H Hb].
  apply andb_true_iff in H. destruct H as [Hc Hq].
  apply negb_true_iff in Hc, Hq, Hb. rewrite (IH Hs).
  unfold JSON.escape_char. rewrite Hq, Hb, Hc.
  apply Nat.ltb_ge in Hc.
  destruct (Nat.eqb_spec (Chars.code c) 8); [lia|].
  destruct (Nat.eqb_spec (Chars.code c) 9); [lia|].
  destruct (Nat.eqb_spec (Chars.code c) 10); [lia|].
  destruct (Nat.eqb_spec (Chars.code c) 12); [lia|].
  destruct (Nat.eqb_spec (Chars.code c) 13); [lia|].
  reflexivity.
Qed.

(** Reading back what [JSON.stringify] wrote for a string gives the string. *)
Lemma json_unescape_escape (s : string) : json_unescape (JSON.escape s) = Some s.
Proof.
  induction s as [|c s IH]; [reflexivity|]. cbn [JSON.escape].
  destruct c as [[] [] [] [] [] [] [] []];
    cbv - [json_unescape JSON.escape];
    cbn [json_unescape]; cbv - [json_unescape JSON.escape];
    rewrite IH; reflexivity.
Qed.

(** C3. Whatever the [try] block throws, the handler answers with the
    response of the [catch]: status 500, [Content-Type: application/json;
    charset=utf-8] and as body the JSON text of an object whose one key is
    [error] and whose value is a string literal that reads back as the
    message; a message without control characters, quotes and backslashes
    stands in it as it is.  The handler itself never throws.  A path that is
    not well-formed percent-encoding, a target that does not parse and an
    upstream that cannot be reached are three such cases. *)
Theorem errors_become_json_500 {E : Environment} (request : Request) (log : list Request) :
  (forall message log',
     handleRequest_try request log = (Throw message, log') ->
     handleRequest request log = (Ok (error_response message), log')) /\
  (exists r log', handleRequest request log = (Ok r, log')) /\
  (forall u message,
     URL_new (url request) None = Ok u ->
     pathname u <> "/" ->
     URI.decodeURIComponent (Str.replace_first "/" "" (pathname u)) = Throw message ->
     handleRequest request log = (Ok (error_response message), log)) /\
  (forall u actualUrlStr message,
     URL_new (url request) None = Ok u ->
     pathname u <> "/" ->
     target_of u = Ok actualUrlStr ->
     URL_new actualUrlStr None = Throw message ->
     handleRequest request log = (Ok (error_response message), log)) /\
  (forall u actualUrlStr target message,
     URL_new (url request) None = Ok u ->
     pathname u <> "/" ->
     target_of u = Ok actualUrlStr ->
     URL_new actualUrlStr None = Ok target ->
     fetch (outbound_request request actualUrlStr target) = Throw message ->
     handleRequest request log =
     (Ok (error_response message),
      (log ++ [outbound_request request actualUrlStr target])%list)) /\
  (forall message,
     status (error_response message) = 500 /\
     Headers.get (res_headers (error_response message)) "Content-Type"
       = Some "application/json; charset=utf-8" /\
     res_body (error_response message)
       = StreamBody (Ok (error_body (JSON.escape message))) /\
     json_unescape (JSON.escape message) = Some message /\
     (json_plain message = true -> JSON.escape message = message)).
Proof.
  split; [|split; [|split; [|split; [|split]]]].
  - intros message log' Htry. now rewrite handleRequest_catch, Htry.
  - rewrite handleRequest_catch.
    destruct (handleRequest_try request log) as [[r|message] log']; eauto.
  - intros u message Hurl Hpath Hdec. rewrite handleRequest_catch.
    unfold handleRequest_try, bind, lift. rewrite Hurl.
    destruct (String.eqb_spec (pathname u) "/") as [Heq|_]; [contradiction|].
    unfold target_of. now rewrite Hdec.
  - intros u actualUrlStr message Hurl Hpath Htarget Hparse. rewrite handleRequest_catch.
    unfold handleRequest_try, bind, lift. rewrite Hurl.
    destruct (String.eqb_spec (pathname u) "/") as [Heq|_]; [contradiction|].
    now rewrite Htarget, Hparse.
  - intros u actualUrlStr target message Hurl Hpath Htarget Hparse Hfetch.
    rewrite handleRequest_catch.
    rewrite (handleRequest_try_proxied request u _ target Hurl Hpath Htarget Hparse).
    now rewrite Hfetch.
    - intros message. split; [reflexivity|]. split; [reflexivity|].
    split; [|split; [apply json_unescape_escape | apply json_plain_escape]].
    cbn [res_body error_response]. do 2 f_equal.
    unfold JSON.stringify_field, JSON.quote, error_body.
    change (JSON.escape "error") with "error". cbn [append].
    now rewrite append_assoc.
Qed.

Lemma errors_become_json_500_witness :
  @serve Demo.env Demo.malformed_request = (Ok (error_response "URI malformed"), []) /\
  @serve Demo.env Demo.unparsable_request = (Ok (error_response "Invalid URL"), []) /\
  statusText (error_response "URI malformed") = "Internal Server Error" /\
  res_body (error_response "URI malformed")
  = StreamBody
      (Ok ("{" ++ String Chars.dquote
                    ("error" ++ String Chars.dquote
                       (":" ++ String Chars.dquote
                          ("URI malformed" ++ String Chars.dquote "}"))))) /\
  res_body
    (error_response
       (String Chars.dquote
          (String Chars.backslash
             (String "008" (String "009" (String "010" (String "012" (String "013"
                (String "001" (String "031" "/"))))))))))
  = StreamBody
      (Ok ("{" ++ String Chars.dquote
                    ("error" ++ String Chars.dquote
                       (":" ++ String Chars.dquote
                          (String Chars.backslash (String Chars.dquote
                             ("\\\b\t\n\f\r\u0001\u001f/" ++ String Chars.dquote "}"))))))).
Proof.
  split; [|split; [|split; [|split]]].
  - apply (proj1 (proj2 (proj2
             (@errors_become_json_500 Demo.env Demo.malformed_request [])))
             (Demo.proxy_url "/%E0%A4%A" None) "URI malformed");
      [reflexivity | discriminate | reflexivity].
  - apply (proj1 (proj2 (proj2 (proj2
             (@errors_become_json_500 Demo.env Demo.unparsable_request []))))
             (Demo.proxy_url "/%20" None) "https:// " "Invalid URL");
      [reflexivity | discriminate | reflexivity | reflexivity].
  - reflexivity.
  - exact (proj1 (proj2 (proj2
             (proj2 (proj2 (proj2 (proj2 (proj2
                (@errors_become_json_500 Demo.env Demo.malformed_request [])))))
                "URI malformed")))).
  - exact (proj1 (proj2 (proj2
             (proj2 (proj2 (proj2 (proj2 (proj2
                (@errors_become_json_500 Demo.env Demo.malformed_request [])))))
                (String Chars.dquote
                   (String Chars.backslash
                      (String "008" (String "009" (String "010" (String "012"
                         (String "013" (String "001" (String "031" "/"))))))))))))).
Defined.

(** ** Response headers *)

Lemma cors_headers_set (h : Headers.t) :
  Headers.get (setCorsHeaders (setNoCacheHeaders h)) "Access-Control-Allow-Origin" = Some "*" /\
  Headers.get (setCorsHeaders (setNoCacheHeaders h)) "Cache-Control" = Some "no-store".
Proof.
  unfold setCorsHeaders, setNoCacheHeaders. split.
  - rewrite !HeadersFacts.get_set_other by reflexivity. apply HeadersFacts.get_set_same.
  - rewrite !HeadersFacts.get_set_other by reflexivity. apply HeadersFacts.get_set_same.
Qed.

(** C4, as the code has it.  A response that the [try] block builds from an
    upstream response which is not a redirect is the handler's response and
    carries [Access-Control-Allow-Origin: *] and [Cache-Control: no-store]. *)
Theorem proxied_response_has_cors_and_no_store {E : Environment}
    (request : Request) (u : URL) (actualUrlStr : string) (target : URL)
    (response r : Response) (log log' : list Request) :
  URL_new (url request) None = Ok u ->
  pathname u <> "/" ->
  target_of u = Ok actualUrlStr ->
  URL_new actualUrlStr None = Ok target ->
  fetch (outbound_request request actualUrlStr target) = Ok response ->
  is_redirect (status response) = false ->
  handleRequest_try request log = (Ok r, log') ->
  handleRequest request log = (Ok r, log') /\
  Headers.get (res_headers r) "Access-Control-Allow-Origin" = Some "*" /\
  Headers.get (res_headers r) "Cache-Control" = Some "no-store".
Proof.
  intros Hurl Hpath Htarget Hparse Hfetch Hstatus Htry.
  split; [now rewrite handleRequest_catch, Htry|].
  rewrite (handleRequest_try_proxied request u _ target Hurl Hpath Htarget Hparse) in Htry.
  unfold after_fetch, bind, lift, ret in Htry. rewrite Hfetch, Hstatus in Htry.
  destruct (is_html (res_headers response)).
  - destruct (result_map OfText _) as [b|m]; [|discriminate].
    destruct (Response_new _ _ _ _) as [modified|m]; [|discriminate].
    injection Htry as <- _. apply cors_headers_set.
  - destruct (Response_new _ _ _ _) as [modified|m]; [|discriminate].
    injection Htry as <- _. apply cors_headers_set.
Qed.

Lemma proxied_response_has_cors_and_no_store_witness :
  exists r out,
    @serve Demo.env Demo.page_request = (Ok r, [out]) /\
    Headers.get (res_headers r) "Access-Control-Allow-Origin" = Some "*" /\
    Headers.get (res_headers r) "Cache-Control" = Some "no-store".
Proof.
  eexists. eexists.
  apply (@proxied_response_has_cors_and_no_store Demo.env Demo.page_request
           (Demo.proxy_url "/example.com%2Fpage" (Some "x=1"))
           "https://example.com/page?x=1"
           (Demo.upstream_url "/page" (Some "x=1"))
           (mkResponse 200 "OK"
              [("Content-Type", "text/html; charset=utf-8"); ("CF-Ray", "1")]
              (StreamBody (Ok (Demo.image_tag "/logo.png")))));
    [reflexivity | discriminate | reflexivity | reflexivity | reflexivity
    | reflexivity | vm_compute; reflexivity].
Defined.

(** Against C4 as it is stated: the landing page, a rewritten redirect and
    the error response each lack both headers. *)
Lemma some_responses_lack_cors_and_no_store :
  (exists r,
     @serve Demo.env Demo.root_request = (Ok r, []) /\
     Headers.get (res_headers r) "Access-Control-Allow-Origin" = None /\
     Headers.get (res_headers r) "Cache-Control" = None) /\
  (exists r out,
     @serve Demo.env Demo.redirect_request = (Ok r, [out]) /\
     status r = 302 /\
     Headers.get (res_headers r) "Access-Control-Allow-Origin" = None /\
     Headers.get (res_headers r) "Cache-Control" = None) /\
  (exists r,
     @serve Demo.env Demo.malformed_request = (Ok r, []) /\
     status r = 500 /\
     Headers.get (res_headers r) "Access-Control-Allow-Origin" = None /\
     Headers.get (res_headers r) "Cache-Control" = None).
Proof.
  split; [|split].
  - eexists. split; [vm_compute; reflexivity | split; reflexivity].
  - eexists. eexists. split; [vm_compute; reflexivity | repeat split].
  - eexists. split; [vm_compute; reflexivity | repeat split].
Qed.

(** ** Redirects *)

Section Redirected.

Context {E : Environment}.
Variables (request : Request) (u : URL) (actualUrlStr : string) (target : URL).
Variables (response : Response) (loc : string) (location : URL).
Hypothesis Hurl : URL_new (url request) None = Ok u.
Hypothesis Hpath : pathname u <> "/".
Hypothesis Htarget : target_of u = Ok actualUrlStr.
Hypothesis Hparse : URL_new actualUrlStr None = Ok target.
Hypothesis Hfetch : fetch (outbound_request request actualUrlStr target) = Ok response.
Hypothesis Hstatus : In (status response) [301; 302; 303; 307; 308].
Hypothesis Hlocation : Headers.get (res_headers response) "location" = Some loc.
Hypothesis Hresolve : URL_new loc (Some actualUrlStr) = Ok location.

Lemma serve_redirect :
  serve request =
  (Ok (redirect_response response location),
   [outbound_request request actualUrlStr target]).
Proof.
  unfold serve. rewrite handleRequest_catch.
  rewrite (handleRequest_try_proxied request u _ target Hurl Hpath Htarget Hparse).
  unfold after_fetch, bind, lift. rewrite Hfetch.
  apply is_redirect_iff in Hstatus. rewrite Hstatus.
  rewrite (handleRedirect_ok response request actualUrlStr location Hstatus);
    [reflexivity | now rewrite Hlocation].
Qed.

(** C1. When the upstream answers the fetched target [actualUrlStr] with a
    status among 301, 302, 303, 307 and 308 and a [Location] that resolves
    against [actualUrlStr] to [location], the client receives a response
    whose [Location] is [/] followed by the percent-encoding of [location],
    with the status and the status text of the upstream response. *)
Theorem redirect_location_rewritten :
  exists r,
    serve request = (Ok r, [outbound_request request actualUrlStr target]) /\
    url (outbound_request request actualUrlStr target) = actualUrlStr /\
    Headers.get (res_headers r) "Location"
      = Some ("/" ++ URI.encodeURIComponent (href location)) /\
    status r = status response /\
    statusText r = statusText response.
Proof.
  exists (redirect_response response location).
  split; [exact serve_redirect|]. split; [reflexivity|].
  split; [|split; reflexivity].
  simpl. unfold forward_set_cookie.
  destruct (Headers.has (res_headers response) "Set-Cookie"); [|reflexivity].
  now rewrite HeadersFacts.get_set_other by reflexivity.
Qed.

(** C10. The headers of the response to a redirect are [Location] and, when
    the upstream response has a [Set-Cookie], that header with the upstream's
    value as [set] stores it: the spread of the upstream headers adds
    nothing, so a header of any other name is absent. *)
Theorem redirect_headers_only_location_and_cookie :
  exists r,
    serve request = (Ok r, [outbound_request request actualUrlStr target]) /\
    Headers.spread (res_headers response) = [] /\
    res_headers r =
      (("Location", "/" ++ URI.encodeURIComponent (href location))
       :: (if Headers.has (res_headers response) "Set-Cookie"
                      then [("Set-Cookie",
                  Headers.normalize
                    (to_string (Headers.get (res_headers response) "Set-Cookie")))]
           else [])) /\
    (forall name,
       Headers.has (res_headers r) name = true <->
       Str.toLowerCase name = "location" \/
       (Str.toLowerCase name = "set-cookie" /\
        Headers.has (res_headers response) "Set-Cookie" = true)).
Proof.
  exists (redirect_response response location).
  split; [exact serve_redirect|]. split; [reflexivity|].
  assert (Hheaders :
    res_headers (redirect_response response location) =
      (("Location", "/" ++ URI.encodeURIComponent (href location))
       :: (if Headers.has (res_headers response) "Set-Cookie"
                      then [("Set-Cookie",
                  Headers.normalize
                    (to_string (Headers.get (res_headers response) "Set-Cookie")))]
           else []))).
  { simpl. unfold forward_set_cookie.
    destruct (Headers.has (res_headers response) "Set-Cookie"); reflexivity. }
  split; [exact Hheaders|].
    intros name. rewrite Hheaders.
  destruct (Headers.has (res_headers response) "Set-Cookie");
    unfold Headers.has; cbn [existsb fst];
    rewrite ?orb_false_r, ?orb_true_iff; unfold Headers.name_eqb;
    rewrite !String.eqb_eq;
    change (Str.toLowerCase "Location") with "location";
    change (Str.toLowerCase "Set-Cookie") with "set-cookie";
    intuition congruence.
Qed.

End Redirected.

(** A redirect whose [Location] does not parse is answered by the [catch]. *)
Example redirect_to_unparsable_location :
  @serve Demo.env Demo.moved_request
  = (Ok (error_response "Invalid URL"),
     [outbound_request Demo.moved_request "https://example.com/moved"
        (Demo.upstream_url "/moved" None)]).
Proof. vm_compute. reflexivity. Qed.

Lemma redirect_location_rewritten_witness :
  exists r,
    @serve Demo.env Demo.redirect_request
      = (Ok r, [outbound_request Demo.redirect_request "https://example.com/a/b"
                  (Demo.upstream_url "/a/b" None)]) /\
    url (outbound_request Demo.redirect_request "https://example.com/a/b"
           (Demo.upstream_url "/a/b" None)) = "https://example.com/a/b" /\
    Headers.get (res_headers r) "Location"
      = Some ("/" ++ URI.encodeURIComponent "https://example.com/login") /\
    status r = 302 /\
    statusText r = "Found".
Proof.
  apply (@redirect_location_rewritten Demo.env Demo.redirect_request
           (Demo.proxy_url "/https%3A%2F%2Fexample.com%2Fa%2Fb" None)
           "https://example.com/a/b"
           (Demo.upstream_url "/a/b" None)
           (mkResponse 302 "Found"
              [("Location", "/login"); ("Set-Cookie", "sid=1"); ("Server", "demo")]
              (StreamBody (Ok "")))
           "/login"
           (Demo.upstream_url "/login" None));
    [reflexivity | discriminate | reflexivity | reflexivity | reflexivity
    | simpl; auto | reflexivity | reflexivity].
Defined.

Lemma redirect_headers_only_location_and_cookie_witness :
  exists r,
    @serve Demo.env Demo.redirect_request
      = (Ok r, [outbound_request Demo.redirect_request "https://example.com/a/b"
                  (Demo.upstream_url "/a/b" None)]) /\
    res_headers r =
      [("Location", "/https%3A%2F%2Fexample.com%2Flogin"); ("Set-Cookie", "sid=1")] /\
    Headers.has (res_headers r) "Server" = false.
Proof.
  destruct (@redirect_headers_only_location_and_cookie Demo.env Demo.redirect_request
              (Demo.proxy_url "/https%3A%2F%2Fexample.com%2Fa%2Fb" None)
              "https://example.com/a/b"
              (Demo.upstream_url "/a/b" None)
              (mkResponse 302 "Found"
                 [("Location", "/login"); ("Set-Cookie", "sid=1"); ("Server", "demo")]
                 (StreamBody (Ok "")))
              "/login"
              (Demo.upstream_url "/login" None))
    as [r [Hserve [_ [Hheaders _]]]];
    [reflexivity | discriminate | reflexivity | reflexivity | reflexivity
    | simpl; auto | reflexivity | reflexivity |].
  exists r. split; [exact Hserve|]. split; [exact Hheaders|].
  rewrite Hheaders. reflexivity.
Defined.

(** ** Iteration over a header list *)

Module EntriesFacts.
Import Headers Iteration.

Lemma lt_name_trans (a b c : string) : lt_name a b -> lt_name b c -> lt_name a c.
Proof.
  unfold lt_name. intros Hab Hbc.
  apply String_as_OT.cmp_lt. apply String_as_OT.cmp_lt in Hab, Hbc.
  exact (String_as_OT.lt_trans _ _ _ Hab Hbc).
Qed.

Lemma compare_refl (a : string) : String.compare a a = Eq.
Proof. now apply String_as_OT.cmp_eq. Qed.

Lemma lt_name_irrefl (a : string) : ~ lt_name a a.
Proof. unfold lt_name. now rewrite compare_refl. Qed.

Lemma compare_Gt_lt (a b : string) : String.compare a b = Gt -> lt_name b a.
Proof.
  unfold lt_name. intros H. rewrite String.compare_antisym, H. reflexivity.
Qed.

Lemma insert_name_In (x n : string) (l : list string) :
  In x (insert_name n l) <-> x = n \/ In x l.
Proof.
  induction l as [|m l IH]; simpl; [intuition|].
  destruct (String.compare n m) eqn:Hc; simpl.
  - apply String_as_OT.cmp_eq in Hc. subst. intuition.
  - intuition.
  - rewrite IH. intuition.
Qed.

Lemma insert_name_sorted (n : string) (l : list string) :
  StronglySorted lt_name l -> StronglySorted lt_name (insert_name n l).
Proof.
  induction 1 as [|m l Hs IH Hall]; simpl.
  - constructor; constructor.
  - destruct (String.compare n m) eqn:Hc.
    + now constructor.
    + constructor; [now constructor|].
      constructor; [exact Hc|].
      eapply Forall_impl; [|exact Hall]. intros x Hx. exact (lt_name_trans _ _ _ Hc Hx).
    + constructor; [exact IH|].
      apply Forall_forall. intros x Hx. apply insert_name_In in Hx.
      destruct Hx as [->|Hx]; [now apply compare_Gt_lt|].
      rewrite Forall_forall in Hall. now apply Hall.
Qed.

Lemma sorted_names_sorted (h : t) : StronglySorted lt_name (sorted_names h).
Proof.
  unfold sorted_names. induction h as [|e h IH]; simpl; [constructor|].
  now apply insert_name_sorted.
Qed.

Lemma sorted_names_In (h : t) (n : string) :
  In n (sorted_names h) <-> exists e, In e h /\ Str.toLowerCase (fst e) = n.
Proof.
  unfold sorted_names. induction h as [|e h IH]; simpl.
  - split; [contradiction | intros [e [[] _]]].
  - rewrite insert_name_In, IH. split.
    + intros [->|[e' [Hin He']]]; eauto.
    + intros [e' [[->|Hin] He']]; eauto.
Qed.

Lemma insert_name_head (n : string) (l : list string) :
  Forall (lt_name n) l -> insert_name n l = n :: l.
Proof.
  destruct l as [|m l]; [reflexivity|]. intros H. simpl.
  apply Forall_inv in H. unfold lt_name in H. now rewrite H.
Qed.

Lemma insert_name_same (n : string) (l : list string) :
  insert_name n (n :: l) = n :: l.
Proof. simpl. now rewrite compare_refl. Qed.

Lemma sorted_NoDup (l : list string) : StronglySorted lt_name l -> NoDup l.
Proof.
  induction 1 as [|m l Hs IH Hall]; constructor; [|exact IH].
  intros Hin. rewrite Forall_forall in Hall. exact (lt_name_irrefl m (Hall m Hin)).
Qed.

Lemma sorted_filter (f : string -> bool) (l : list string) :
  StronglySorted lt_name l -> StronglySorted lt_name (filter f l).
Proof.
  induction 1 as [|m l Hs IH Hall]; simpl; [constructor|].
  destruct (f m); [|exact IH]. constructor; [exact IH|].
  apply Forall_forall. intros x Hx. apply filter_In in Hx.
  rewrite Forall_forall in Hall. now apply Hall.
Qed.

Lemma to_lower_idem (c : ascii) : Chars.to_lower (Chars.to_lower c) = Chars.to_lower c.
Proof. destruct c as [[] [] [] [] [] [] [] []]; reflexivity. Qed.

Lemma toLowerCase_idem (s : string) :
  Str.toLowerCase (Str.toLowerCase s) = Str.toLowerCase s.
Proof.
  unfold Str.toLowerCase. induction s as [|c s IH]; simpl; [reflexivity|].
  now rewrite to_lower_idem, IH.
Qed.


Lemma filter_all (A : Type) (f : A -> bool) (l : list A) :
  (forall x, In x l -> f x = true) -> filter f l = l.
Proof.
  induction l as [|a l IH]; intros H; simpl; [reflexivity|].
  rewrite (H a (or_introl eq_refl)). f_equal. apply IH. intros x Hx. apply H. now right.
Qed.

Lemma filter_none (A : Type) (f : A -> bool) (l : list A) :
  (forall x, In x l -> f x = false) -> filter f l = [].
Proof.
  induction l as [|a l IH]; intros H; simpl; [reflexivity|].
  rewrite (H a (or_introl eq_refl)). apply IH. intros x Hx. apply H. now right.
Qed.

Lemma flat_map_agree (A B : Type) (f1 f2 : A -> list B) (l : list A) :
  (forall a, In a l -> f1 a = f2 a) -> flat_map f1 l = flat_map f2 l.
Proof.
  induction l as [|a l IH]; intros H; simpl; [reflexivity|].
  rewrite (H a (or_introl eq_refl)). f_equal. apply IH. intros x Hx. apply H. now right.
Qed.

Lemma name_eqb_lower (m n : string) :
  Str.toLowerCase m = m -> Str.toLowerCase n = n -> name_eqb m n = String.eqb m n.
Proof. unfold name_eqb. now intros -> ->. Qed.

Section Blocks.

Variable g : string -> list (string * string).

Lemma well_grouped_filter (f : string -> bool) (names : list string) :
  well_grouped g names -> well_grouped g (filter f names).
Proof.
  intros [Hs Hb]. split; [now apply sorted_filter|].
  apply Forall_forall. intros n Hn. apply filter_In in Hn.
  rewrite Forall_forall in Hb. now apply Hb.
Qed.

Lemma fold_insert_block (a : string) (l t : list string) :
  l <> [] -> (forall x, In x l -> x = a) -> Forall (lt_name a) t ->
  fold_right insert_name t l = a :: t.
Proof.
  intros Hne Hall Ht. induction l as [|x l IH]; [contradiction|].
  simpl. rewrite (Hall x (or_introl eq_refl)).
  destruct l as [|y l].
  - simpl. now apply insert_name_head.
  - rewrite IH; [apply insert_name_same | discriminate |].
    intros z Hz. apply Hall. now right.
Qed.

Lemma names_of_blocks (names : list string) :
  well_grouped g names -> sorted_names (flat_map g names) = names.
Proof.
  intros [Hs Hb]. unfold sorted_names.
  induction Hs as [|a t Hs IH Hall]; [reflexivity|].
  apply Forall_cons_iff in Hb. destruct Hb as [[Hlow [Hne [Hfst _]]] Hb].
  simpl. rewrite map_app, fold_right_app, (IH Hb).
  apply fold_insert_block.
  - destruct (g a); [contradiction | discriminate].
  - intros x Hx. apply in_map_iff in Hx. destruct Hx as [e [<- He]].
    now rewrite (Hfst e He).
  - exact Hall.
Qed.

Lemma filter_blocks_other (n : string) (names : list string) :
  Str.toLowerCase n = n -> Forall (block_ok g) names -> ~ In n names ->
  filter (fun e => name_eqb (fst e) n) (flat_map g names) = [].
Proof.
  intros Hn Hb Hnotin. apply filter_none. intros e He.
  apply in_flat_map in He. destruct He as [m [Hm He]].
  rewrite Forall_forall in Hb. destruct (Hb m Hm) as [Hlow [_ [Hfst _]]].
  rewrite (Hfst e He), (name_eqb_lower _ _ Hlow Hn).
  apply String.eqb_neq. intros ->. contradiction.
Qed.

Lemma filter_blocks (n : string) (names : list string) :
  well_grouped g names -> In n names ->
  filter (fun e => name_eqb (fst e) n) (flat_map g names) = g n.
Proof.
  intros [Hs Hb] Hin. apply sorted_NoDup in Hs.
  induction names as [|a t IH]; [contradiction|].
  apply NoDup_cons_iff in Hs. destruct Hs as [Hnotin Hs].
  pose proof Hb as Hb0.
  apply Forall_cons_iff in Hb. destruct Hb as [[Hlow [_ [Hfst _]]] Hb].
  simpl. rewrite filter_app. destruct Hin as [->|Hin].
  - rewrite filter_all.
    + rewrite (filter_blocks_other n t Hlow Hb Hnotin). apply app_nil_r.
    + intros e He. rewrite (Hfst e He). apply HeadersFacts.name_eqb_refl.
  - rewrite filter_none; [now apply IH|].
    intros e He. rewrite (Hfst e He).
    rewrite Forall_forall in Hb. destruct (Hb n Hin) as [Hn _].
    rewrite (name_eqb_lower _ _ Hlow Hn). apply String.eqb_neq. intros ->. contradiction.
Qed.

Lemma group_of_blocks (n : string) (names : list string) :
  well_grouped g names -> In n names -> group (flat_map g names) n = g n.
Proof.
  intros Hwg Hin. unfold group, get, values. rewrite (filter_blocks n names Hwg Hin).
  destruct Hwg as [_ Hb]. rewrite Forall_forall in Hb.
  destruct (Hb n Hin) as [_ [_ [Hfst Hone]]].
  destruct (String.eqb_spec n "set-cookie") as [Heq|Hneq].
  - rewrite map_map. clear Hone. induction (g n) as [|[m v] l IH]; [reflexivity|].
    simpl. rewrite <- (Hfst (m, v) (or_introl eq_refl)) at 1. simpl. f_equal.
    apply IH. intros e He. apply Hfst. now right.
  - destruct (Hone Hneq) as [v ->]. reflexivity.
Qed.

Lemma entries_of_blocks (names : list string) :
  well_grouped g names -> entries (flat_map g names) = flat_map g names.
Proof.
  intros Hwg. unfold entries. rewrite (names_of_blocks names Hwg).
  apply flat_map_agree. intros n Hn. now apply group_of_blocks.
Qed.

Lemma filter_flat_map_blocks (f : string -> bool) (names : list string) :
  Forall (block_ok g) names ->
  filter (fun e => f (fst e)) (flat_map g names) = flat_map g (filter f names).
Proof.
  induction 1 as [|a t [_ [_ [Hfst _]]] Hb IH]; [reflexivity|].
  simpl. rewrite filter_app, IH. destruct (f a) eqn:Hfa; simpl.
  - f_equal. apply filter_all. intros e He. now rewrite (Hfst e He).
  - rewrite filter_none; [reflexivity|]. intros e He. now rewrite (Hfst e He).
Qed.

End Blocks.

Lemma values_nonempty (h : t) (e : string * string) :
  In e h -> values h (Str.toLowerCase (fst e)) <> [].
Proof.
  intros Hin. unfold values. induction h as [|x h IH]; [contradiction|].
  simpl. destruct Hin as [->|Hin].
  - unfold name_eqb at 1. rewrite toLowerCase_idem, String.eqb_refl. discriminate.
  - destruct (name_eqb (fst x) _); [discriminate | now apply IH].
Qed.

Lemma entries_well_grouped (h : t) : well_grouped (group h) (sorted_names h).
Proof.
  split; [apply sorted_names_sorted|].
  apply Forall_forall. intros n Hn. apply sorted_names_In in Hn.
  destruct Hn as [e [Hin <-]]. pose proof (values_nonempty h e Hin) as Hv.
  unfold block_ok, group, get.
  destruct (values h (Str.toLowerCase (fst e))) as [|v vs] eqn:Hvals; [contradiction|].
  split; [apply toLowerCase_idem|].
  destruct (String.eqb_spec (Str.toLowerCase (fst e)) "set-cookie") as [Heq|Hneq].
  - split; [discriminate|]. split; [|contradiction].
    intros x Hx. apply in_map_iff in Hx. now destruct Hx as [w [<- _]].
  - split; [discriminate|]. split; [|eauto].
    intros x [<-|[]]. reflexivity.
Qed.

(** Iterating over the headers built from an iteration gives the same list. *)
Lemma entries_idempotent (h : t) : entries (entries h) = entries h.
Proof. apply (entries_of_blocks (group h)). apply entries_well_grouped. Qed.

(** Normalizing the values keeps the shape of an iteration. *)
Lemma normalized_flat_map (g : string -> list (string * string)) (names : list string) :
  Iteration.normalized (flat_map g names)
  = flat_map (fun n => Iteration.normalized (g n)) names.
Proof.
  unfold Iteration.normalized.
  induction names as [|a l IH]; simpl; [reflexivity|]. now rewrite map_app, IH.
Qed.

Lemma well_grouped_normalized (g : string -> list (string * string))
    (names : list string) :
  well_grouped g names -> well_grouped (fun n => Iteration.normalized (g n)) names.
Proof.
  intros [Hs Hb]. split; [exact Hs|].
  eapply Forall_impl; [|exact Hb]. intros n [Hlow [Hne [Hfst Hone]]].
  unfold Iteration.normalized. repeat split.
  - exact Hlow.
    - destruct (g n); [contradiction | simpl; discriminate].
    - intros e He. apply in_map_iff in He. destruct He as [e0 [<- He0]].
    cbn [fst]. now apply Hfst.
  - intros Hn. destruct (Hone Hn) as [v ->]. eexists. reflexivity.
Qed.


End EntriesFacts.

(** ** Header filtering *)

Lemma entries_In (h : Headers.t) (e : string * string) :
  In e (Headers.entries h) ->
  In (fst e) (Headers.sorted_names h) /\ Str.toLowerCase (fst e) = fst e.
Proof.
  intros He. apply in_flat_map in He. destruct He as [n [Hn He]].
  destruct (EntriesFacts.entries_well_grouped h) as [_ Hb].
  rewrite Forall_forall in Hb. destruct (Hb n Hn) as [Hlow [_ [Hfst _]]].
  rewrite (Hfst e He). now split.
Qed.

Lemma has_entries (h : Headers.t) (name : string) :
  Headers.has (Headers.entries h) name = true -> Headers.has h name = true.
Proof.
  unfold Headers.has. rewrite !existsb_exists. intros [e [He Hname]].
  destruct (entries_In h e He) as [Hin Hlow].
  apply EntriesFacts.sorted_names_In in Hin. destruct Hin as [e' [Hin' He']].
  exists e'. split; [exact Hin'|].
  unfold Headers.name_eqb in *. now rewrite He', <- Hlow.
Qed.

(** The filtered headers, block by block: the blocks of the iteration whose
    name the predicate keeps, with their values normalized. *)
Lemma filterHeaders_blocks (h : Headers.t) (f : string -> bool) :
  filterHeaders h f
  = flat_map (fun n => Iteration.normalized (Headers.group h n))
      (filter f (Headers.sorted_names h)).
Proof.
  unfold filterHeaders. rewrite HeadersFacts.of_list_normalized. unfold Headers.entries.
  rewrite (EntriesFacts.filter_flat_map_blocks _ f _
             (proj2 (EntriesFacts.entries_well_grouped h))).
  apply EntriesFacts.normalized_flat_map.
Qed.

Lemma filterHeaders_well_grouped (h : Headers.t) (f : string -> bool) :
  Iteration.well_grouped (fun n => Iteration.normalized (Headers.group h n))
    (filter f (Headers.sorted_names h)).
Proof.
  apply EntriesFacts.well_grouped_normalized, EntriesFacts.well_grouped_filter,
    EntriesFacts.entries_well_grouped.
Qed.

Lemma filterHeaders_In (h : Headers.t) (f : string -> bool) (e : string * string) :
  In e (filterHeaders h f) ->
  exists e0, In e0 (Headers.entries h) /\ f (fst e0) = true /\ fst e = fst e0.
Proof.
  unfold filterHeaders. rewrite HeadersFacts.of_list_normalized.
  unfold Iteration.normalized. intros He. apply in_map_iff in He.
  destruct He as [e0 [<- He0]]. apply filter_In in He0. destruct He0 as [Hin Hf].
  exists e0. repeat split; assumption.
Qed.

Lemma filterHeaders_idempotent (h : Headers.t) (f : string -> bool) :
  filterHeaders (filterHeaders h f) f = filterHeaders h f.
Proof.
  pose proof (filterHeaders_well_grouped h f) as Hwg.
  rewrite (filterHeaders_blocks h f).
  unfold filterHeaders at 1. rewrite HeadersFacts.of_list_normalized.
  rewrite (EntriesFacts.entries_of_blocks _ _ Hwg).
  rewrite (EntriesFacts.filter_flat_map_blocks _ f _ (proj2 Hwg)).
  rewrite EntriesFacts.filter_all by (intros n Hn; now apply filter_In in Hn).
  rewrite EntriesFacts.normalized_flat_map.
  apply EntriesFacts.flat_map_agree. intros n _. apply HeadersFacts.normalized_idem.
Qed.

Lemma has_filterHeaders (h : Headers.t) (f : string -> bool) (name : string) :
  Headers.has (filterHeaders h f) name = true ->
  Headers.has h name = true /\ f (Str.toLowerCase name) = true.
Proof.
  intros H. pose proof H as H0.
    unfold Headers.has in H. rewrite existsb_exists in H. destruct H as [e [He Hname]].
  apply filterHeaders_In in He. destruct He as [e0 [He [Hf Hfst]]].
  rewrite Hfst in Hname. split.
  - apply has_entries. unfold Headers.has. rewrite existsb_exists. eauto.
  - destruct (entries_In h e0 He) as [_ Hlow].
    unfold Headers.name_eqb in Hname. apply String.eqb_eq in Hname.
    now rewrite <- Hname, Hlow.
Qed.

(** C8. Filtering a filtered header set changes nothing; after the worker's
    filter neither [Host] nor any header whose name starts with [cf-] is
    present; and the outbound headers have a [Cookie] exactly when the
    inbound headers have one. *)
Theorem header_filtering_properties (inbound : Headers.t) :
  (forall filterFunc,
     filterHeaders (filterHeaders inbound filterFunc) filterFunc
     = filterHeaders inbound filterFunc) /\
  (forall name,
     Str.toLowerCase name = "host" \/ Str.startsWith (Str.toLowerCase name) "cf-" = true ->
     Headers.has (filterHeaders inbound forwarded) name = false) /\
  (forall target_hostname,
     Headers.has (outbound_headers inbound target_hostname) "Cookie"
     = Headers.has inbound "Cookie").
Proof.
  split; [|split].
  - intros filterFunc. apply filterHeaders_idempotent.
  - intros name Hname.
    destruct (Headers.has (filterHeaders inbound forwarded) name) eqn:Hhas; [|reflexivity].
    apply has_filterHeaders in Hhas. destruct Hhas as [_ Hf].
    unfold forwarded in Hf. rewrite EntriesFacts.toLowerCase_idem in Hf.
    apply andb_true_iff in Hf. destruct Hf as [Hcf Hhost].
    destruct Hname as [Hname|Hname].
    + now rewrite Hname in Hhost.
    + now rewrite Hname in Hcf.
  - intros target_hostname. unfold outbound_headers.
    rewrite HeadersFacts.has_set_other by reflexivity.
    rewrite (HeadersFacts.has_name_eqb inbound "Cookie" "cookie") by reflexivity.
    destruct (Headers.has inbound "cookie") eqn:Hcookie.
    + apply HeadersFacts.has_set_same.
    + destruct (Headers.has (filterHeaders inbound forwarded) "Cookie") eqn:Hhas;
        [|reflexivity].
      apply has_filterHeaders in Hhas. destruct Hhas as [Hin _].
      rewrite (HeadersFacts.has_name_eqb inbound "Cookie" "cookie") in Hin by reflexivity.
      congruence.
Qed.

Lemma header_filtering_properties_witness :
  Headers.has (filterHeaders (headers Demo.redirect_request) forwarded) "Host" = false /\
  Headers.has (filterHeaders (headers Demo.redirect_request) forwarded) "CF-Connecting-IP"
    = false.
Proof.
  split.
  - apply (proj1 (proj2 (header_filtering_properties (headers Demo.redirect_request)))).
    left. reflexivity.
  - apply (proj1 (proj2 (header_filtering_properties (headers Demo.redirect_request)))).
    right. reflexivity.
Defined.

(** ** The pattern of [replaceRelativePaths] *)

Module RegExpFacts.
Import RegExp Pattern.

Lemma strip_spec (p s r : string) : strip p s = Some r <-> s = p ++ r.
Proof.
  revert s; induction p as [|c p IH]; intros s; simpl.
  - split; [now intros [= ->] | now intros ->].
  - destruct s as [|d t]; [split; discriminate|].
    destruct (Ascii.eqb_spec d c) as [->|Hne].
    + rewrite IH. split; [now intros -> | now intros [= ->]].
    + split; [discriminate | intros [= Hd _]; contradiction].
Qed.

Lemma run_lit (p : string) (x : state) (k : cont) :
  run (lit p) x k =
  match strip p (ahead x) with
  | Some r => k (mkState (seen x ++ p) r (caps x))
  | None => None
  end.
Proof.
  revert x; induction p as [|c p IH]; intros x; simpl.
  - destruct x as [sn ah cp]; simpl. now rewrite append_nil_r.
  - destruct (ahead x) as [|d t]; [reflexivity|].
    destruct (Ascii.eqb_spec d c) as [->|Hne]; [|reflexivity].
    rewrite IH. unfold step; simpl. now rewrite append_assoc.
Qed.

Lemma no_slash_cases (s : string) :
  no_slash s -> s = "" \/ exists c t, s = String c t /\ c <> Chars.slash.
Proof.
  unfold no_slash, Str.startsWith. destruct s as [|c t]; [now left|].
  cbn [String.prefix]. destruct (ascii_dec "/" c) as [<-|Hne].
  - destruct t; discriminate.
  - intros _. right. exists c, t. split; [reflexivity|]. intros ->. now apply Hne.
Qed.

Lemma no_slash_cons (c : ascii) (t : string) : c <> Chars.slash -> no_slash (String c t).
Proof.
  intros Hne. unfold no_slash, Str.startsWith. cbn [String.prefix].
  destruct (ascii_dec "/" c) as [<-|_]; [now elim Hne | reflexivity].
Qed.

Lemma no_slash_append (s t : string) : no_slash s -> no_slash t -> no_slash (s ++ t).
Proof.
  intros Hs Ht. destruct (no_slash_cases s Hs) as [->|[c [s' [-> Hc]]]]; [exact Ht|].
  now apply no_slash_cons.
Qed.

Lemma match_here_found (a : string) (c : ascii) (rest : string) :
  attribute a -> quote_char c -> no_slash rest ->
  match_here relative_path_regex (a ++ "=" ++ String c ("/" ++ rest)) = Some (matched a c rest).
Proof.
  intros Ha Hc Hrest.
  apply no_slash_cases in Hrest.
  unfold attribute, quote_char in *. simpl in Ha, Hc.
  destruct Ha as [<-|[<-|[<-|[]]]]; destruct Hc as [<-|[<-|[]]];
    destruct Hrest as [->|[d [t [-> Hd]]]]; try reflexivity.
  all: unfold match_here, relative_path_regex, matched; cbn.
  all: destruct (Ascii.eqb_spec d Chars.slash) as [Heq|_]; [contradiction | reflexivity].
Qed.

Lemma match_here_unfold (s : string) :
  match_here relative_path_regex s =
  or_else (run (lit "href") (mkState "" s []) (after_name (mkState "" s [])))
    (or_else (run (lit "src") (mkState "" s []) (after_name (mkState "" s [])))
       (run (lit "action") (mkState "" s []) (after_name (mkState "" s [])))).
Proof. reflexivity. Qed.

Lemma after_name_spec (s0 a r : string) (x : state) :
  after_name (mkState "" s0 []) (mkState a r []) = Some x ->
  exists c rest,
    quote_char c /\ no_slash rest /\
    r = String "=" (String c (String "/" rest)) /\ x = matched a c rest.
Proof.
  unfold after_name. cbn.
  destruct r as [|d1 r]; [discriminate|].
  destruct (Ascii.eqb_spec d1 "=") as [->|_]; [|discriminate].
  destruct r as [|d2 r]; [discriminate|]. cbn.
  assert (Hq : (Ascii.eqb d2 Chars.dquote || (Ascii.eqb d2 Chars.squote || false)) = true
               -> quote_char d2).
  { unfold quote_char. simpl.
    destruct (Ascii.eqb_spec d2 Chars.dquote) as [->|_]; [now left|].
    destruct (Ascii.eqb_spec d2 Chars.squote) as [->|_]; [now right; left|].
    discriminate. }
  destruct (Ascii.eqb d2 Chars.dquote || (Ascii.eqb d2 Chars.squote || false));
    [specialize (Hq eq_refl)|discriminate].
  destruct r as [|d3 r]; [discriminate|]. cbn.
  destruct (Ascii.eqb_spec d3 Chars.slash) as [->|_]; [|discriminate].
  assert (Hfinal :
    step (capture 1 (mkState "" s0 []) (step (step (capture 2 (mkState "" s0 []) (mkState a r [])) "=" r) d2 r)) Chars.slash r
    = matched a d2 r).
  { unfold matched, step, capture. cbn. f_equal.
    - now rewrite !append_assoc.
    - now rewrite !append_assoc. }
  unfold step, capture in *. cbn in *.
  destruct r as [|d4 r]; cbn.
  - intros [= <-]. exists d2, "". repeat split; try assumption. 
  - destruct (Ascii.eqb_spec d4 Chars.slash) as [->|Hne]; [discriminate|].
    intros [= <-]. exists d2, (String d4 r). repeat split; try assumption.
    now apply no_slash_cons.
Qed.

Lemma match_here_inv (s : string) (x : state) :
  match_here relative_path_regex s = Some x ->
  exists a c rest,
    attribute a /\ quote_char c /\ no_slash rest /\
    s = a ++ "=" ++ String c ("/" ++ rest) /\ x = matched a c rest.
Proof.
  rewrite match_here_unfold, !run_lit. cbn [ahead seen caps].
  change ("" ++ "href") with "href". change ("" ++ "src") with "src".
  change ("" ++ "action") with "action".
  intros H.
  assert (Hname : exists a r,
            attribute a /\ s = a ++ r /\ after_name (mkState "" s []) (mkState a r []) = Some x).
  { destruct (strip "href" s) as [r|] eqn:H1.
    - apply strip_spec in H1.
      destruct (after_name _ (mkState "href" r [])) as [y|] eqn:Hy.
      + exists "href", r. injection H as <-. repeat split; auto. now left.
      + subst s. discriminate H.
    - destruct (strip "src" s) as [r|] eqn:H2.
      + apply strip_spec in H2.
        destruct (after_name _ (mkState "src" r [])) as [y|] eqn:Hy.
        * exists "src", r. injection H as <-. repeat split; auto. now right; left.
        * subst s. discriminate H.
      + destruct (strip "action" s) as [r|] eqn:H3; [|discriminate H].
        apply strip_spec in H3. exists "action", r. cbn in H.
        repeat split; auto. now right; right; left. }
  destruct Hname as [a [r [Ha [Hs Hafter]]]].
  apply after_name_spec in Hafter. destruct Hafter as [c [rest [Hc [Hrest [-> ->]]]]].
  exists a, c, rest. repeat split; assumption.
Qed.


(** *** Substitution *)

Lemma no_dollar_append (a b : string) : no_dollar a -> no_dollar b -> no_dollar (a ++ b).
Proof. unfold no_dollar. intros Ha Hb. now rewrite mem_append, Ha, Hb. Qed.

Lemma GetSubstitution_plain (n : nat) (before : string) (x : state) (t : string) :
  no_dollar t -> GetSubstitution n before x t = t.
Proof.
  unfold no_dollar. induction t as [|c t IH]; [reflexivity|].
  cbn [Str.mem GetSubstitution]. intros H. apply orb_false_iff in H. destruct H as [Hc Ht].
  rewrite Ascii.eqb_sym, Hc. now rewrite (IH Ht).
Qed.

Lemma GetSubstitution_first_group (before : string) (x : state) (t : string) :
  no_dollar t ->
  GetSubstitution 2 before x ("$1" ++ t) = capture_ref 2 1 x "$1" ++ t.
Proof.
  intros Ht. pose proof (GetSubstitution_plain 2 before x t Ht) as Hplain.
  change ("$1" ++ t) with (String "$" (String "1" t)).
  cbn [GetSubstitution]. change (Ascii.eqb "$" Chars.dollar) with true.
  change (Ascii.eqb "1" Chars.dollar) with false.
  change (Ascii.eqb "1" "`") with false. change (Ascii.eqb "1" "&") with false.
  change (Ascii.eqb "1" "'") with false. change (digit_value "1") with (Some 1).
  cbv iota beta. rewrite Hplain.
  destruct t as [|e t']; [reflexivity|].
  destruct (digit_value e) as [n2|]; reflexivity.
Qed.


(** *** The replacement loop on the worker's pattern *)

Section Rewrite.

Variables protocol host : string.
Hypothesis Hprotocol : no_dollar protocol.
Hypothesis Hhost : no_dollar host.

Local Abbreviation base := (protocol ++ "//" ++ host ++ "/").
Local Abbreviation loop := (replace_loop relative_path_regex 2 ("$1" ++ base)).
Local Abbreviation R := (replace_all relative_path_regex 2 ("$1" ++ base)).

Lemma no_dollar_base : no_dollar base.
Proof. repeat apply no_dollar_append; auto; reflexivity. Qed.

Lemma substitution_of_match (before a : string) (c : ascii) (rest : string) :
  GetSubstitution 2 before (matched a c rest) ("$1" ++ base)
  = a ++ "=" ++ String c "" ++ base.
Proof.
  rewrite (GetSubstitution_first_group _ _ _ no_dollar_base).
  unfold capture_ref, matched. cbn. now rewrite !append_assoc.
Qed.

Lemma loop_nil (before : string) (k : nat) : loop before "" k = "".
Proof. destruct k; reflexivity. Qed.

Lemma loop_miss (before : string) (c : ascii) (t : string) :
  match_here relative_path_regex (String c t) = None ->
  loop before (String c t) 0 = String c (loop (before ++ String c "") t 0).
Proof. intros H. cbn [replace_loop]. now rewrite H. Qed.

Lemma loop_hit (before : string) (c : ascii) (t : string) (x : state) :
  match_here relative_path_regex (String c t) = Some x ->
  loop before (String c t) 0 =
  GetSubstitution 2 before x ("$1" ++ base) ++
  match String.length (seen x) with
  | O => String c (loop (before ++ String c "") t 0)
  | S n => loop (before ++ String c "") t n
  end.
Proof. intros H. cbn [replace_loop]. now rewrite H. Qed.

(** The text before the match plays no part: the template has no reference
    to it. *)
Lemma loop_before (s : string) :
  forall (k : nat) (b1 b2 : string), loop b1 s k = loop b2 s k.
Proof.
  induction s as [|c t IH]; intros k b1 b2; [now rewrite !loop_nil|].
  destruct k as [|k]; [|cbn [replace_loop]; apply IH].
  destruct (match_here relative_path_regex (String c t)) as [x|] eqn:Hm.
  - rewrite !(loop_hit _ _ _ _ Hm).
    destruct (match_here_inv _ _ Hm) as [a [d [rest [_ [_ [_ [_ ->]]]]]]].
    rewrite !substitution_of_match. f_equal.
    destruct (String.length (seen (matched a d rest))); [f_equal|]; apply IH.
  - rewrite !(loop_miss _ _ _ Hm). f_equal. apply IH.
Qed.

Lemma loop_skip (k : nat) :
  forall (s before : string), loop before s k = R (Str.drop k s).
Proof.
  unfold replace_all. induction k as [|k IH]; intros s before.
  - apply loop_before.
  - destruct s as [|c t]; [reflexivity|]. cbn [replace_loop Str.drop]. apply IH.
Qed.

Lemma R_miss (c : ascii) (t : string) :
  match_here relative_path_regex (String c t) = None ->
  R (String c t) = String c (R t).
Proof.
  intros H. unfold replace_all. rewrite (loop_miss _ _ _ H). f_equal. apply loop_before.
Qed.

Lemma attribute_cons (a : string) :
  attribute a -> exists c t, a = String c t /\ c <> Chars.slash /\
                             ~ quote_char c /\ c <> "="%char.
Proof.
  unfold attribute, quote_char. simpl.
  intros [<-|[<-|[<-|[]]]]; eexists; eexists; (split; [reflexivity|]);
    repeat split; try discriminate; intros [H|[H|[]]]; discriminate H.
Qed.

Lemma R_hit (a : string) (c : ascii) (rest : string) :
  attribute a -> quote_char c -> no_slash rest ->
  R (a ++ "=" ++ String c ("/" ++ rest)) = a ++ "=" ++ String c (base ++ R rest).
Proof.
  intros Ha Hc Hrest. pose proof (match_here_found a c rest Ha Hc Hrest) as Hm.
  destruct (attribute_cons a Ha) as [d [t [-> _]]].
  unfold replace_all. cbn [append] in *. rewrite (loop_hit _ _ _ _ Hm).
  rewrite substitution_of_match.
  assert (Hlen : String.length (seen (matched (String d t) c rest))
                 = S (String.length (t ++ "=" ++ String c "/"))) by reflexivity.
  rewrite Hlen, loop_skip.
  replace (t ++ String "=" (String c (String "/" rest)))
    with ((t ++ "=" ++ String c "/") ++ rest) by (rewrite !append_assoc; reflexivity).
  rewrite drop_append.
  repeat (progress (rewrite ?append_assoc; cbn [append])). reflexivity.
Qed.


Lemma no_slash_attribute (a Y : string) : attribute a -> no_slash (a ++ Y).
Proof.
  intros Ha. destruct (attribute_cons a Ha) as [c [t [-> [Hc _]]]].
  now apply no_slash_cons.
Qed.

Lemma no_slash_left (p X : string) : no_slash (p ++ X) -> no_slash p.
Proof.
  destruct p as [|c t]; [reflexivity|]. intros H.
  destruct (no_slash_cases _ H) as [Heq|[d [u [Heq Hd]]]]; [discriminate Heq|].
  injection Heq as <- _. now apply no_slash_cons.
Qed.

Ltac not_in_middle Heq Ha Hq :=
  exfalso; clear - Heq Ha Hq;
  unfold attribute, quote_char in Ha, Hq; simpl in Ha, Hq;
  destruct Ha as [<-|[<-|[<-|[]]]]; simpl in Heq;
  try discriminate Heq;
  injection Heq as Heq _; subst; destruct Hq as [Hq|[Hq|[]]]; discriminate Hq.

(** An occurrence of the pattern that starts before an attribute name ends
    before it. *)
Lemma occurrence_inside (pre a Y a' : string) (q' : ascii) (rest' : string) :
  attribute a -> attribute a' -> quote_char q' -> pre <> "" ->
  pre ++ a ++ Y = a' ++ "=" ++ String q' ("/" ++ rest') ->
  exists p', pre = a' ++ "=" ++ String q' ("/" ++ p') /\ rest' = p' ++ a ++ Y.
Proof.
  intros Ha Ha' Hq' Hne Heq.
  unfold attribute in Ha'; simpl in Ha'.
  destruct Ha' as [<-|[<-|[<-|[]]]];
    (destruct pre as [|c pre]; [contradiction|]);
    simpl in Heq; injection Heq as -> Heq;
    repeat (destruct pre as [|c pre];
            [not_in_middle Heq Ha Hq' | simpl in Heq; injection Heq as -> Heq]);
    exists pre; (split; [reflexivity | now symmetry]).
Qed.

Lemma R_append_attribute (n : nat) :
  forall pre a Y, attribute a -> String.length pre <= n ->
  R (pre ++ a ++ Y) = R pre ++ R (a ++ Y).
Proof.
  induction n as [|n IH]; intros pre a Y Ha Hlen.
  - destruct pre; [reflexivity | simpl in Hlen; lia].
  - destruct pre as [|c p]; [reflexivity|].
    destruct (match_here relative_path_regex (String c p ++ a ++ Y)) as [x|] eqn:Hm.
    + destruct (match_here_inv _ _ Hm) as [a' [q' [rest' [Ha' [Hq' [Hrest' [Heq _]]]]]]].
      assert (Hne : String c p <> "") by discriminate.
      destruct (occurrence_inside _ _ _ _ _ _ Ha Ha' Hq' Hne Heq) as [p' [Hpre ->]].
      rewrite Heq, Hpre.
      rewrite (R_hit a' q' p' Ha' Hq' (no_slash_left _ _ Hrest')).
      rewrite (R_hit a' q' _ Ha' Hq' Hrest').
      rewrite (IH p' a Y Ha).
      * repeat (progress (rewrite ?append_assoc; cbn [append])). reflexivity.
      * apply (f_equal String.length) in Hpre. rewrite length_append in Hpre.
        cbn [String.length append] in Hpre, Hlen. lia.
    + assert (Hp : match_here relative_path_regex (String c p) = None).
      { destruct (match_here relative_path_regex (String c p)) as [y|] eqn:Hy;
          [|reflexivity].
        destruct (match_here_inv _ _ Hy) as [a' [q' [r [Ha' [Hq' [Hr [Heq _]]]]]]].
        rewrite Heq in Hm.
        replace ((a' ++ "=" ++ String q' ("/" ++ r)) ++ a ++ Y)
          with (a' ++ "=" ++ String q' ("/" ++ (r ++ a ++ Y))) in Hm
          by (repeat (progress (rewrite ?append_assoc; cbn [append])); reflexivity).
        rewrite (match_here_found a' q' _ Ha' Hq'
                   (no_slash_append _ _ Hr (no_slash_attribute a Y Ha))) in Hm.
        discriminate Hm. }
      change (String c p ++ a ++ Y) with (String c (p ++ a ++ Y)) in *.
      rewrite (R_miss _ _ Hm), (R_miss _ _ Hp).
      change (String c (R p) ++ R (a ++ Y)) with (String c (R p ++ R (a ++ Y))). f_equal.
      apply IH; [exact Ha | simpl in Hlen; lia].
Qed.

(** Rewriting distributes over an attribute name: what comes before it is
    rewritten on its own. *)
Lemma R_before_attribute (pre a Y : string) :
  attribute a -> R (pre ++ a ++ Y) = R pre ++ R (a ++ Y).
Proof. intros Ha. now apply (R_append_attribute (String.length pre)). Qed.

(** A protocol-relative reference is copied. *)
Lemma R_protocol_relative (a : string) (c : ascii) (rest : string) :
  attribute a -> quote_char c ->
  R (a ++ "=" ++ String c ("//" ++ rest)) = a ++ "=" ++ String c ("//" ++ R rest).
Proof.
  unfold attribute, quote_char. simpl.
  intros [<-|[<-|[<-|[]]]] [<-|[<-|[]]]; cbn [append];
    repeat (rewrite R_miss by reflexivity); reflexivity.
Qed.

(** A text without an occurrence of the pattern is returned as it is. *)
Lemma R_no_occurrence (text : string) :
  (forall pre a c rest,
     attribute a -> quote_char c -> no_slash rest ->
     text <> pre ++ a ++ "=" ++ String c ("/" ++ rest)) ->
  R text = text.
Proof.
  induction text as [|d t IH]; intros Hnone; [reflexivity|].
  destruct (match_here relative_path_regex (String d t)) as [x|] eqn:Hm.
  - destruct (match_here_inv _ _ Hm) as [a [c [rest [Ha [Hc [Hrest [Heq _]]]]]]].
    now elim (Hnone "" a c rest Ha Hc Hrest).
  - rewrite (R_miss _ _ Hm). f_equal. apply IH.
    intros pre a c rest Ha Hc Hrest Heq.
    apply (Hnone (String d pre) a c rest Ha Hc Hrest). now rewrite Heq.
Qed.

End Rewrite.

End RegExpFacts.

(** ** HTML rewriting *)

(** C2. With a protocol and a host free of [$], [replaceRelativePaths]
    rewrites every occurrence of [href], [src] or [action] followed by [=], a
    quote and a [/] that no second [/] follows: the [/] becomes the protocol,
    [//], the host and [/], the attribute name and the quote stay, and the
    text before and after the occurrence is rewritten in the same way.  An
    occurrence whose quote is followed by [//] is copied unchanged, and so is
    a text with no occurrence at all.  [handleHtmlContent] applies the
    function to the text of the body. *)
Theorem replaceRelativePaths_rewrites_root_relative (protocol host origin' : string) :
  Str.mem Chars.dollar protocol = false ->
  Str.mem Chars.dollar host = false ->
  (forall pre a c rest,
     In a ["href"; "src"; "action"] ->
     In c [Chars.dquote; Chars.squote] ->
     Str.startsWith rest "/" = false ->
     replaceRelativePaths (pre ++ a ++ "=" ++ String c ("/" ++ rest)) protocol host origin'
     = replaceRelativePaths pre protocol host origin'
       ++ a ++ "=" ++ String c (protocol ++ "//" ++ host ++ "/"
                                ++ replaceRelativePaths rest protocol host origin')) /\
  (forall pre a c rest,
     In a ["href"; "src"; "action"] ->
     In c [Chars.dquote; Chars.squote] ->
     replaceRelativePaths (pre ++ a ++ "=" ++ String c ("//" ++ rest)) protocol host origin'
     = replaceRelativePaths pre protocol host origin'
       ++ a ++ "=" ++ String c ("//" ++ replaceRelativePaths rest protocol host origin')) /\
  (forall text,
     (forall pre a c rest,
        In a ["href"; "src"; "action"] ->
        In c [Chars.dquote; Chars.squote] ->
        Str.startsWith rest "/" = false ->
        text <> pre ++ a ++ "=" ++ String c ("/" ++ rest)) ->
     replaceRelativePaths text protocol host origin' = text) /\
  (forall (E : Environment) response actualUrlStr text target,
     Body_text (res_body response) = Ok text ->
     URL_new actualUrlStr None = Ok target ->
     handleHtmlContent response protocol host actualUrlStr
     = Ok (replaceRelativePaths text protocol host (origin target))).
Proof.
  intros Hprotocol Hhost. unfold replaceRelativePaths. repeat split.
  - intros pre a c rest Ha Hc Hrest.
    rewrite (RegExpFacts.R_before_attribute protocol host Hprotocol Hhost pre a _ Ha).
    rewrite (RegExpFacts.R_hit protocol host Hprotocol Hhost a c rest Ha Hc Hrest).
    repeat (progress (rewrite ?append_assoc; cbn [append])). reflexivity.
  - intros pre a c rest Ha Hc.
    rewrite (RegExpFacts.R_before_attribute protocol host Hprotocol Hhost pre a _ Ha).
    rewrite (RegExpFacts.R_protocol_relative protocol host Hprotocol Hhost a c rest Ha Hc).
    reflexivity.
  - intros text Hnone.
    apply (RegExpFacts.R_no_occurrence protocol host Hprotocol Hhost). exact Hnone.
  - intros E response actualUrlStr text target Htext Htarget.
    unfold handleHtmlContent. now rewrite Htext, Htarget.
Qed.

Lemma replaceRelativePaths_rewrites_root_relative_witness :
  replaceRelativePaths (Demo.image_tag "/logo.png") "https:" "proxy.example"
    "https://example.com"
  = Demo.image_tag "https://proxy.example/logo.png" /\
  replaceRelativePaths (Demo.image_tag "//cdn.example/logo.png") "https:" "proxy.example"
    "https://example.com"
  = Demo.image_tag "//cdn.example/logo.png".
Proof.
  destruct (replaceRelativePaths_rewrites_root_relative "https:" "proxy.example"
              "https://example.com" eq_refl eq_refl) as [Hrelative [Hprotocol _]].
  split.
  - exact (Hrelative "<img " "src" Chars.dquote ("logo.png" ++ String Chars.dquote ">")
             (or_intror (or_introl eq_refl)) (or_introl eq_refl) eq_refl).
  - exact (Hprotocol "<img " "src" Chars.dquote
             ("cdn.example/logo.png" ++ String Chars.dquote ">")
             (or_intror (or_introl eq_refl)) (or_introl eq_refl)).
Defined.

(** The replacement is a template: a [$&] in the host would stand for the
    matched text. *)
Example dollar_in_host_is_a_reference :
  replaceRelativePaths (Demo.image_tag "/logo.png") "https:" "a$&b" "https://example.com"
  = Demo.image_tag ("https://asrc=" ++ String Chars.dquote "/b/logo.png").
Proof. vm_compute. reflexivity. Qed.

(** The page of the scripted upstream comes back with its image under the
    proxy's own origin. *)
Example page_is_rewritten :
  exists r out,
    @serve Demo.env Demo.page_request = (Ok r, [out]) /\
    res_body r = StreamBody (Ok (Demo.image_tag "https://proxy.example/logo.png")).
Proof. eexists. eexists. split; [vm_compute; reflexivity | reflexivity]. Qed.

(** * Further properties *)

Module URIFacts.
Import URI.

Lemma hex_value_hex_digit (n : nat) :
  n < 16 -> Chars.hex_value (Chars.hex_digit n) = Some n.
Proof.
  intros H. do 16 (destruct n as [|n]; [reflexivity|]). lia.
Qed.

Lemma code_of_nat (n : nat) : n < 256 -> Chars.code (ascii_of_nat n) = n.
Proof. apply nat_ascii_embedding. Qed.

Lemma of_nat_code (c : ascii) : ascii_of_nat (Chars.code c) = c.
Proof. apply ascii_nat_embedding. Qed.

Lemma escape_value (c : ascii) :
  Chars.hex_value (Chars.hex_digit (Chars.code c / 16)) = Some (Chars.code c / 16) /\
  Chars.hex_value (Chars.hex_digit (Chars.code c mod 16)) = Some (Chars.code c mod 16) /\
  16 * (Chars.code c / 16) + Chars.code c mod 16 = Chars.code c.
Proof.
  pose proof (AlphabetFacts.code_bound c) as Hc. repeat split.
  - apply hex_value_hex_digit. apply Nat.Div0.div_lt_upper_bound. lia.
  - apply hex_value_hex_digit. apply Nat.mod_upper_bound. lia.
  - symmetry. apply Nat.div_mod_eq.
Qed.

Lemma decode_escape_start (c : ascii) (t : string) :
  decode_loop (escape c ++ t) [] 0 =
  match leading_ones (Chars.code c) with
  | 0 => result_map (String c) (decode_loop t [] 0)
  | 1 => Throw URIError
  | S (S k) => if Nat.ltb 2 k then Throw URIError else decode_loop t [Chars.code c] (S k)
  end.
Proof.
  destruct (escape_value c) as [H1 [H2 H3]].
  unfold escape. cbn [append decode_loop].
  change (Ascii.eqb Chars.percent Chars.percent) with true. cbv iota.
  rewrite H1, H2. cbv zeta. rewrite H3, of_nat_code. reflexivity.
Qed.

Lemma decode_escape_next (c : ascii) (t : string) (pending : list nat) (k : nat) :
  decode_loop (escape c ++ t) pending (S k) =
  match k with
  | 0 => if valid_utf8 (pending ++ [Chars.code c])
         then result_map (String.append (bytes_to_string (pending ++ [Chars.code c])))
                (decode_loop t [] 0)
         else Throw URIError
  | S _ => decode_loop t (pending ++ [Chars.code c]) k
  end.
Proof.
  destruct (escape_value c) as [H1 [H2 H3]].
  unfold escape. cbn [append decode_loop].
  change (Ascii.eqb Chars.percent Chars.percent) with true. cbv iota.
  rewrite H1, H2. cbv zeta. rewrite H3. reflexivity.
Qed.

Lemma decode_plain (c : ascii) (t : string) :
  c <> Chars.percent ->
  decode_loop (String c t) [] 0 = result_map (String c) (decode_loop t [] 0).
Proof.
  intros Hc. cbn [decode_loop].
  destruct (Ascii.eqb_spec c Chars.percent) as [Heq|_]; [contradiction | reflexivity].
Qed.

Lemma unreserved_ascii (c : ascii) : unreserved c = true -> Chars.code c < 128 /\ c <> Chars.percent.
Proof.
  destruct c as [[] [] [] [] [] [] [] []]; try discriminate; intros _;
    (split; [vm_compute; lia | discriminate]).
Qed.

Lemma encode_high (c : ascii) (t : string) :
  128 <= Chars.code c ->
  encodeURIComponent (String c t) = escape c ++ encodeURIComponent t.
Proof.
  intros Hc. cbn [encodeURIComponent].
  destruct (unreserved c) eqn:Hu; [|reflexivity].
  apply unreserved_ascii in Hu. lia.
Qed.

Lemma between_spec (lo hi b : nat) : between lo hi b = true <-> lo <= b <= hi.
Proof.
  unfold between. rewrite andb_true_iff, !Nat.leb_le. reflexivity.
Qed.

Lemma leading_ones_spec (b : nat) :
  (b < 128 -> leading_ones b = 0) /\
  (192 <= b < 224 -> leading_ones b = 2) /\
  (224 <= b < 240 -> leading_ones b = 3) /\
  (240 <= b < 248 -> leading_ones b = 4).
Proof.
  unfold leading_ones.
  destruct (Nat.ltb_spec b 128); destruct (Nat.ltb_spec b 192);
    destruct (Nat.ltb_spec b 224); destruct (Nat.ltb_spec b 240);
    destruct (Nat.ltb_spec b 248); repeat split; intros; try reflexivity; lia.
Qed.

Ltac bounds H :=
  repeat (rewrite ?andb_true_iff, ?orb_true_iff, ?between_spec, ?Nat.eqb_eq in H).

(** [decodeURIComponent] undoes [encodeURIComponent] on well-formed text. *)
Lemma decode_encode (s : string) :
  well_formed s -> decodeURIComponent (encodeURIComponent s) = Ok s.
Proof.
  unfold decodeURIComponent. induction 1 as [|c s Hc Hs IH|octets s Hv Hs IH].
  - reflexivity.
  - cbn [encodeURIComponent]. destruct (unreserved c) eqn:Hu.
    + apply unreserved_ascii in Hu. rewrite (decode_plain c _ (proj2 Hu)), IH. reflexivity.
    + rewrite decode_escape_start.
      rewrite (proj1 (leading_ones_spec (Chars.code c)) Hc), IH. reflexivity.
  - destruct octets as [|a [|b [|c [|d [|e octets]]]]]; try discriminate Hv.
    + assert (Hb : 194 <= a <= 223 /\ 128 <= b <= 191) by (cbn in Hv; bounds Hv; lia).
      change (bytes_to_string [a; b] ++ s)
        with (String (ascii_of_nat a) (String (ascii_of_nat b) s)) at 1.
      rewrite !encode_high by (rewrite code_of_nat; lia).
      rewrite decode_escape_start, code_of_nat by lia.
      rewrite (proj1 (proj2 (leading_ones_spec a))) by lia.
      change (Nat.ltb 2 0) with false. cbv iota.
      rewrite decode_escape_next, code_of_nat by lia.
      change ([a] ++ [b])%list with [a; b]. rewrite Hv, IH. reflexivity.
    + assert (Hb : 224 <= a <= 239 /\ 128 <= b <= 191 /\ 128 <= c <= 191)
        by (cbn in Hv; bounds Hv; lia).
      change (bytes_to_string [a; b; c] ++ s)
        with (String (ascii_of_nat a) (String (ascii_of_nat b) (String (ascii_of_nat c) s)))
        at 1.
      rewrite !encode_high by (rewrite code_of_nat; lia).
      rewrite decode_escape_start, code_of_nat by lia.
      rewrite (proj1 (proj2 (proj2 (leading_ones_spec a)))) by lia.
      change (Nat.ltb 2 1) with false. cbv iota.
      rewrite decode_escape_next, code_of_nat by lia.
      rewrite decode_escape_next, code_of_nat by lia.
      change (([a] ++ [b]) ++ [c])%list with [a; b; c]. rewrite Hv, IH. reflexivity.
    + assert (Hb : 240 <= a <= 244 /\ 128 <= b <= 191 /\ 128 <= c <= 191 /\ 128 <= d <= 191)
        by (cbn in Hv; bounds Hv; lia).
      change (bytes_to_string [a; b; c; d] ++ s)
        with (String (ascii_of_nat a) (String (ascii_of_nat b)
                (String (ascii_of_nat c) (String (ascii_of_nat d) s)))) at 1.
      rewrite !encode_high by (rewrite code_of_nat; lia).
      rewrite decode_escape_start, code_of_nat by lia.
      rewrite (proj2 (proj2 (proj2 (leading_ones_spec a)))) by lia.
      change (Nat.ltb 2 2) with false. cbv iota.
      rewrite decode_escape_next, code_of_nat by lia.
      rewrite decode_escape_next, code_of_nat by lia.
      rewrite decode_escape_next, code_of_nat by lia.
      change ((([a] ++ [b]) ++ [c]) ++ [d])%list with [a; b; c; d]. rewrite Hv, IH.
      reflexivity.
Qed.

End URIFacts.

Module LookupFacts.
Import Headers Iteration.

Lemma name_eqb_lower_right (a name : string) :
  name_eqb a (Str.toLowerCase name) = name_eqb a name.
Proof. unfold name_eqb. now rewrite EntriesFacts.toLowerCase_idem. Qed.

Lemma values_lower (h : t) (name : string) :
  values h (Str.toLowerCase name) = values h name.
Proof.
  unfold values. f_equal. apply filter_ext. intros e. apply name_eqb_lower_right.
Qed.

Lemma get_lower (h : t) (name : string) : get h (Str.toLowerCase name) = get h name.
Proof. unfold get. now rewrite values_lower. Qed.

Lemma rebuilt_value_lower (h : t) (name : string) :
  rebuilt_value h (Str.toLowerCase name) = rebuilt_value h name.
Proof.
  unfold rebuilt_value. now rewrite EntriesFacts.toLowerCase_idem, values_lower, get_lower.
Qed.

(** The values a block of the filtered headers holds under its name combine
    to the rebuilt value. *)
Lemma get_group (h : t) (n : string) :
  Str.toLowerCase n = n ->
  joined (List.map snd (Iteration.normalized (group h n))) = rebuilt_value h n.
Proof.
  intros Hlow. unfold rebuilt_value, group, Iteration.normalized. rewrite Hlow.
  destruct (String.eqb n "set-cookie").
  - rewrite !map_map. cbn [fst snd]. reflexivity.
  - destruct (get h n) as [v|]; reflexivity.
Qed.

Lemma values_absent (h : t) (n : string) :
  Str.toLowerCase n = n -> ~ In n (sorted_names h) -> values h n = [].
Proof.
  intros Hlow Hnotin. destruct (values h n) as [|v vs] eqn:Hv; [reflexivity|].
  exfalso. apply Hnotin. apply EntriesFacts.sorted_names_In.
  assert (Hhas : has h n = true) by (rewrite HeadersFacts.has_values, Hv; reflexivity).
  unfold has in Hhas. apply existsb_exists in Hhas. destruct Hhas as [e [He Hname]].
  exists e. split; [exact He|].
  unfold name_eqb in Hname. apply String.eqb_eq in Hname. now rewrite Hname.
Qed.

Lemma get_blocks (h : t) (f : string -> bool) (name : string) :
  get (flat_map (fun n => Iteration.normalized (group h n))
         (filter f (sorted_names h))) name =
  if f (Str.toLowerCase name) then rebuilt_value h name else None.
Proof.
  pose proof (filterHeaders_well_grouped h f) as Hwg.
  rewrite <- (get_lower _ name), <- (rebuilt_value_lower h name).
  set (n := Str.toLowerCase name).
  assert (Hlow : Str.toLowerCase n = n) by apply EntriesFacts.toLowerCase_idem.
  destruct (in_dec string_dec n (filter f (sorted_names h))) as [Hin|Hnotin].
  - unfold get at 1, values.
    rewrite (EntriesFacts.filter_blocks _ n _ Hwg Hin).
        apply filter_In in Hin. destruct Hin as [Hin ->]. exact (get_group h n Hlow).
  - unfold get at 1, values.
    rewrite (EntriesFacts.filter_blocks_other _ n _ Hlow (proj2 Hwg) Hnotin).
    cbn. destruct (f n) eqn:Hf; [|reflexivity].
    assert (Hv : values h n = []).
    { apply values_absent; [exact Hlow|]. intros Hin. apply Hnotin.
      apply filter_In. now split. }
    unfold rebuilt_value, get. rewrite Hv. now destruct (String.eqb _ _).
Qed.

Lemma get_filterHeaders (h : t) (f : string -> bool) (name : string) :
  get (filterHeaders h f) name
  = if f (Str.toLowerCase name) then rebuilt_value h name else None.
Proof. rewrite filterHeaders_blocks. apply get_blocks. Qed.

End LookupFacts.

Lemma name_eqb_false (a name : string) :
  Str.toLowerCase name <> Str.toLowerCase a -> Headers.name_eqb a name = false.
Proof.
  intros H. unfold Headers.name_eqb. apply String.eqb_neq. intros Heq. now apply H.
Qed.

Lemma values_name_eqb (h : Headers.t) (a b : string) :
  Headers.name_eqb a b = true -> Headers.values h a = Headers.values h b.
Proof.
  intros Hab. unfold Headers.values. f_equal. apply filter_ext.
  intros e. now apply HeadersFacts.name_eqb_right.
Qed.

Lemma Response_new_fields (b : BodyInit) (st : nat) (text : string)
    (init : Headers.init) (m : Response) :
  Response_new b (Some st) (Some text) init = Ok m ->
  status m = st /\ statusText m = text /\
  res_headers m =
    match b with
    | OfBody _ => Headers.new init
    | OfText _ =>
        if null_body_status st || Headers.has (Headers.new init) "Content-Type"
        then Headers.new init
        else Headers.append (Headers.new init) "Content-Type" "text/plain;charset=UTF-8"
    end.
Proof.
  unfold Response_new.
  destruct (negb (Nat.leb 200 st && Nat.leb st 599)); [discriminate|].
  destruct b as [[|content]|s].
  - intros [= <-]. repeat split.
  - destruct (null_body_status st); [discriminate|]. intros [= <-]. repeat split.
  - destruct (null_body_status st).
    + destruct (String.eqb s ""); [|discriminate]. intros [= <-]. repeat split.
    + intros [= <-]. repeat split.
Qed.

Lemma is_html_has (h : Headers.t) :
  is_html h = true -> Headers.has h "Content-Type" = true.
Proof.
  unfold is_html. intros H. rewrite HeadersFacts.has_get.
  destruct (Headers.get h "Content-Type"); [reflexivity | discriminate].
Qed.

Section ProxiedResponse.

Context {E : Environment}.
Variables (request : Request) (u : URL) (actualUrlStr : string) (target : URL).
Variable response : Response.
Hypothesis Hurl : URL_new (url request) None = Ok u.
Hypothesis Hpath : pathname u <> "/".
Hypothesis Htarget : target_of u = Ok actualUrlStr.
Hypothesis Hparse : URL_new actualUrlStr None = Ok target.
Hypothesis Hfetch : fetch (outbound_request request actualUrlStr target) = Ok response.

Lemma try_after_response (log : list Request) :
  handleRequest_try request log =
  after_fetch request u actualUrlStr (Ok response)
    (log ++ [outbound_request request actualUrlStr target])%list.
Proof.
  rewrite (handleRequest_try_proxied request u _ target Hurl Hpath Htarget Hparse).
  now rewrite Hfetch.
Qed.

(** The headers of a response the [try] block returns, in terms of the
    upstream headers. *)
Lemma proxied_headers (r : Response) (log log' : list Request) :
  handleRequest_try request log = (Ok r, log') ->
  (is_redirect (status response) = true /\
   exists v, res_headers r = forward_set_cookie (res_headers response) [("Location", v)]) \/
  (is_redirect (status response) = false /\
      res_headers r =
     setCorsHeaders (setNoCacheHeaders
       (forward_set_cookie (res_headers response) (res_headers response)))).
Proof.
  rewrite try_after_response. unfold after_fetch, bind, lift, ret.
  destruct (is_redirect (status response)) eqn:Hst.
  - intros H. left. split; [reflexivity|].
    unfold handleRedirect in H.
    destruct (URL_new _ (Some actualUrlStr)) as [location|m]; [|discriminate H].
    cbn [result_bind] in H.
    destruct (Response_new _ _ _ _) as [m|m] eqn:Hnew; [|discriminate H].
    cbn [result_bind] in H. injection H as <- _.
        apply Response_new_fields in Hnew. destruct Hnew as [_ [_ Hh]].
    cbn in Hh. rewrite Hh. eexists. reflexivity.
  - intros H. right. split; [reflexivity|].
    destruct (is_html (res_headers response)) eqn:Hhtml.
    + destruct (result_map OfText _) as [b|m] eqn:Hb; [|discriminate H].
      destruct (Response_new _ _ _ _) as [m|m] eqn:Hnew; [|discriminate H].
      injection H as <- _.
            apply Response_new_fields in Hnew. destruct Hnew as [_ [_ Hh]].
      cbn [res_headers with_headers Headers.new] in *. rewrite Hh.
      destruct b as [x|s]; [reflexivity|].
      now rewrite (is_html_has _ Hhtml), orb_true_r.
    + destruct (Response_new _ _ _ _) as [m|m] eqn:Hnew; [|discriminate H].
      injection H as <- _.
            apply Response_new_fields in Hnew. destruct Hnew as [_ [_ Hh]].
      cbn [res_headers with_headers Headers.new] in *. now rewrite Hh.
Qed.


(** X11. Beyond the five names the handler writes, a proxied response that is not
    a redirect has the upstream's headers; the two CORS headers that list
    methods and headers have the handler's values. *)
Theorem proxied_response_keeps_upstream_headers (r : Response) (log log' : list Request) :
  is_redirect (status response) = false ->
  handleRequest_try request log = (Ok r, log') ->
  Headers.get (res_headers r) "Access-Control-Allow-Methods" = Some "GET, POST, PUT, DELETE" /\
  Headers.get (res_headers r) "Access-Control-Allow-Headers" = Some "*" /\
  (forall name,
     ~ In (Str.toLowerCase name) forced_names ->
     Headers.get (res_headers r) name = Headers.get (res_headers response) name).
Proof.
  intros Hst Htry.
  destruct (proxied_headers r log log' Htry) as [[Hred _]|[_ ->]]; [congruence|].
  unfold setCorsHeaders, setNoCacheHeaders. split; [|split].
  - rewrite HeadersFacts.get_set_other by reflexivity. apply HeadersFacts.get_set_same.
  - apply HeadersFacts.get_set_same.
  - intros name Hname. unfold forced_names in Hname. cbn [In] in Hname.
    rewrite !HeadersFacts.get_set_other
      by (apply name_eqb_false; intros Heq; apply Hname; rewrite Heq; cbn; tauto).
    unfold forward_set_cookie.
    destruct (Headers.has (res_headers response) "Set-Cookie").
        + now rewrite HeadersFacts.get_set_other
        by (apply name_eqb_false; intros Heq; apply Hname; rewrite Heq; cbn; tauto).
    + reflexivity.
Qed.

(** X12. The [Set-Cookie] headers of the upstream reach the client as one
    header: their values joined by a comma and a space, without the
    whitespace that the joined value has at its ends. *)
Theorem set_cookie_values_are_joined (r : Response) (log log' : list Request) :
  Headers.has (res_headers response) "Set-Cookie" = true ->
  handleRequest_try request log = (Ok r, log') ->
  Headers.values (res_headers r) "Set-Cookie"
  = [Headers.normalize
       (String.concat ", " (Headers.values (res_headers response) "Set-Cookie"))].
Proof.
  intros Hhas Htry.
  assert (Hvalue : to_string (Headers.get (res_headers response) "Set-Cookie")
                   = String.concat ", " (Headers.values (res_headers response) "Set-Cookie")).
  { rewrite HeadersFacts.has_get in Hhas. unfold Headers.get in *.
    destruct (Headers.values (res_headers response) "Set-Cookie"); [discriminate|reflexivity]. }
  destruct (proxied_headers r log log' Htry) as [[_ [v ->]]|[_ ->]].
  - unfold forward_set_cookie. rewrite Hhas, Hvalue. apply HeadersFacts.values_set_same.
  - unfold setCorsHeaders, setNoCacheHeaders.
    rewrite !HeadersFacts.values_set_other by reflexivity.
    unfold forward_set_cookie. rewrite Hhas, Hvalue. apply HeadersFacts.values_set_same.
Qed.

Lemma status_in_range (st : nat) :
  200 <= st <= 599 -> negb (Nat.leb 200 st && Nat.leb st 599) = false.
Proof.
  intros [H1 H2]. apply Nat.leb_le in H1, H2. now rewrite H1, H2.
Qed.

(** X9. A response that is neither a redirect nor HTML reaches the client with
    its status, status text and body. *)
Theorem pass_through_keeps_status_and_body :
  is_redirect (status response) = false ->
  is_html (res_headers response) = false ->
  200 <= status response <= 599 ->
  res_body response = NullBody \/ null_body_status (status response) = false ->
  exists r,
    serve request = (Ok r, [outbound_request request actualUrlStr target]) /\
    status r = status response /\
    statusText r = statusText response /\
    res_body r = res_body response.
Proof.
  intros Hst Hhtml Hrange Hbody.
  unfold serve. rewrite handleRequest_catch, try_after_response.
  unfold after_fetch, bind, lift, ret. rewrite Hst, Hhtml.
  unfold Response_new. rewrite (status_in_range _ Hrange).
  destruct (res_body response) as [|content] eqn:Hb.
  - eexists. split; [reflexivity|]. repeat split.
  - destruct Hbody as [Hbody|Hbody]; [discriminate|]. rewrite Hbody.
    eexists. split; [reflexivity|]. repeat split.
Qed.

(** X10. An HTML response reaches the client with its status and status text and
    with the rewritten text as its body. *)
Theorem html_body_is_rewritten (text : string) :
  is_redirect (status response) = false ->
  is_html (res_headers response) = true ->
  Body_text (res_body response) = Ok text ->
  200 <= status response <= 599 ->
  null_body_status (status response) = false ->
  exists r,
    serve request = (Ok r, [outbound_request request actualUrlStr target]) /\
    status r = status response /\
    statusText r = statusText response /\
    res_body r
    = StreamBody (Ok (replaceRelativePaths text (protocol u) (host u) (origin target))).
Proof.
  intros Hst Hhtml Htext Hrange Hnull.
  unfold serve. rewrite handleRequest_catch, try_after_response.
  unfold after_fetch, bind, lift, ret. rewrite Hst, Hhtml.
  unfold handleHtmlContent. rewrite Htext, Hparse. cbn [result_bind result_map].
  unfold Response_new. rewrite (status_in_range _ Hrange), Hnull.
  eexists. split; [reflexivity|]. repeat split.
Qed.

Lemma not_redirect_outside (st : nat) :
  st < 200 \/ 599 < st \/ null_body_status st = true -> is_redirect st = false.
Proof.
  intros H. destruct (is_redirect st) eqn:Hr; [|reflexivity].
  apply is_redirect_iff in Hr. cbn in Hr.
  repeat (destruct Hr as [Hr|Hr];
          [subst st; destruct H as [H|[H|H]]; [lia | lia | discriminate H]|]).
  contradiction.
Qed.

(** X13. An upstream status outside 200 to 599 is answered with the error
    response, and so is a status that allows no body on a response with an
    HTML content type whose rewritten text is not empty: the response cannot
    be constructed. *)
Theorem unconstructible_response_becomes_500 :
  status response < 200 \/ 599 < status response \/
  (is_html (res_headers response) = true /\
   null_body_status (status response) = true /\
   exists text,
     Body_text (res_body response) = Ok text /\
     replaceRelativePaths text (protocol u) (host u) (origin target) <> "") ->
  exists message,
    serve request
    = (Ok (error_response message), [outbound_request request actualUrlStr target]).
Proof.
  intros Hcase.
  assert (Hst : is_redirect (status response) = false).
  { apply not_redirect_outside. destruct Hcase as [H|[H|[_ [H _]]]]; auto. }
  unfold serve. rewrite handleRequest_catch, try_after_response.
  unfold after_fetch, bind, lift, ret. rewrite Hst.
  destruct (negb (Nat.leb 200 (status response) && Nat.leb (status response) 599))
    eqn:Hrange.
  - assert (Hnew : forall b,
              Response_new b (Some (status response)) (Some (statusText response))
                (Headers.Object (res_headers response)) = Throw RangeError_status).
    { intros b. unfold Response_new. now rewrite Hrange. }
    destruct (is_html (res_headers response)).
    + destruct (result_map OfText _) as [b|m]; [|eauto]. rewrite Hnew. eauto.
    + rewrite Hnew. eauto.
  - pose proof Hrange as Hin.
    apply negb_false_iff, andb_true_iff in Hin.
    destruct Hin as [H1 H2]. apply Nat.leb_le in H1, H2.
    destruct Hcase as [H|[H|[Hhtml [Hnull [text [Htext Hne]]]]]]; [lia | lia |].
    rewrite Hhtml. unfold handleHtmlContent. rewrite Htext, Hparse.
    cbn [result_bind result_map]. unfold Response_new. rewrite Hrange, Hnull.
    destruct (String.eqb_spec
                (replaceRelativePaths text (protocol u) (host u) (origin target)) "")
      as [Heq|_]; [contradiction|].
    eauto.
Qed.

(** X17. An HTML response with a status that allows no body and with an empty
    text, such as a 304, reaches the client with its status and status text
    and without a body. *)
Theorem html_without_text_keeps_no_body :
  is_html (res_headers response) = true ->
  Body_text (res_body response) = Ok "" ->
  200 <= status response <= 599 ->
  null_body_status (status response) = true ->
  exists r,
    serve request = (Ok r, [outbound_request request actualUrlStr target]) /\
    status r = status response /\
    statusText r = statusText response /\
    res_body r = NullBody.
Proof.
  intros Hhtml Htext Hrange Hnull.
  assert (Hst : is_redirect (status response) = false)
    by (apply not_redirect_outside; auto).
  unfold serve. rewrite handleRequest_catch, try_after_response.
  unfold after_fetch, bind, lift, ret. rewrite Hst, Hhtml.
  unfold handleHtmlContent. rewrite Htext, Hparse. cbn [result_bind result_map].
  unfold Response_new. rewrite (status_in_range _ Hrange), Hnull.
  change (String.eqb (replaceRelativePaths "" (protocol u) (host u) (origin target)) "")
    with true.
  eexists. split; [reflexivity|]. repeat split.
Qed.

(** X14. A redirect without a [Location] header: the handler resolves the text
    [null]. *)
Theorem redirect_without_location_resolves_null (location : URL) :
  In (status response) [301; 302; 303; 307; 308] ->
  Headers.get (res_headers response) "location" = None ->
  URL_new "null" (Some actualUrlStr) = Ok location ->
  exists r,
    serve request = (Ok r, [outbound_request request actualUrlStr target]) /\
    status r = status response /\
    Headers.get (res_headers r) "Location"
    = Some ("/" ++ URI.encodeURIComponent (href location)).
Proof.
  intros Hst Hnone Hresolve. apply is_redirect_iff in Hst.
  unfold serve. rewrite handleRequest_catch, try_after_response.
  unfold after_fetch, bind, lift. rewrite Hst.
  rewrite (handleRedirect_ok response request actualUrlStr location Hst)
    by (now rewrite Hnone).
  eexists. split; [reflexivity|]. split; [reflexivity|].
  cbn [res_headers redirect_response]. unfold forward_set_cookie.
  destruct (Headers.has (res_headers response) "Set-Cookie"); [|reflexivity].
  now rewrite HeadersFacts.get_set_other by reflexivity.
Qed.

End ProxiedResponse.

(** X8. The handler issues at most one outbound request; it carries the method
    and the body of the inbound request and asks for redirects not to be
    followed. *)
Theorem at_most_one_fetch {E : Environment} (request : Request) :
  snd (serve request) = [] \/
  exists out,
    snd (serve request) = [out] /\
    method out = method request /\
    body out = body request /\
    redirect out = manual.
Proof.
  destruct (URL_new (url request) None) as [u|m] eqn:Hurl.
  2:{ left. unfold serve. rewrite handleRequest_catch.
      unfold handleRequest_try, bind, lift. now rewrite Hurl. }
  destruct (String.eqb_spec (pathname u) "/") as [Hroot|Hpath].
  { left. unfold serve. rewrite handleRequest_catch.
    unfold handleRequest_try, bind, lift. rewrite Hurl, Hroot. reflexivity. }
  destruct (target_of u) as [actualUrlStr|m] eqn:Htarget.
  2:{ left. unfold serve. rewrite handleRequest_catch.
      unfold handleRequest_try, bind, lift. rewrite Hurl.
      destruct (String.eqb_spec (pathname u) "/"); [contradiction|].
      now rewrite Htarget. }
  destruct (URL_new actualUrlStr None) as [target|m] eqn:Hparse.
  2:{ left. unfold serve. rewrite handleRequest_catch.
      unfold handleRequest_try, bind, lift. rewrite Hurl.
      destruct (String.eqb_spec (pathname u) "/"); [contradiction|].
      now rewrite Htarget, Hparse. }
  right. exists (outbound_request request actualUrlStr target).
  split; [|repeat split].
  unfold serve.
  now rewrite (handleRequest_proxied_log request u _ target Hurl Hpath Htarget Hparse).
Qed.

Lemma prefix_here (p s : string) : String.prefix p (p ++ s) = true.
Proof.
  induction p as [|c p IH]; cbn [append String.prefix]; [now destruct s|].
  destruct (ascii_dec c c) as [_|Hne]; [exact IH | now elim Hne].
Qed.

(** X15. Every response of the handler is the error response, the landing page
    with status 200, or a response with the status and status text of the
    upstream response to its one outbound request. *)
Theorem response_status_comes_from_upstream {E : Environment}
    (request : Request) (r : Response) (log : list Request) :
  serve request = (Ok r, log) ->
  (exists message, r = error_response message) \/
  (log = [] /\ status r = 200 /\ res_body r = StreamBody (Ok getRootHtml)) \/
  (exists out response,
     log = [out] /\ fetch out = Ok response /\
     status r = status response /\ statusText r = statusText response).
Proof.
  unfold serve. rewrite handleRequest_catch.
  destruct (handleRequest_try request []) as [[r'|message] log'] eqn:Htry.
  2:{ intros [= <- _]. left. eauto. }
  intros [= -> ->]. right.
  destruct (URL_new (url request) None) as [u|m] eqn:Hurl.
  2:{ unfold handleRequest_try, bind, lift in Htry. rewrite Hurl in Htry. discriminate. }
  destruct (String.eqb_spec (pathname u) "/") as [Hroot|Hpath].
  { unfold handleRequest_try, bind, lift in Htry. rewrite Hurl, Hroot in Htry.
    cbn in Htry. injection Htry as <- <-. left. repeat split. }
  destruct (target_of u) as [actualUrlStr|m] eqn:Htarget.
  2:{ unfold handleRequest_try, bind, lift in Htry. rewrite Hurl in Htry.
      destruct (String.eqb_spec (pathname u) "/"); [contradiction|].
      rewrite Htarget in Htry. discriminate. }
  destruct (URL_new actualUrlStr None) as [target|m] eqn:Hparse.
  2:{ unfold handleRequest_try, bind, lift in Htry. rewrite Hurl in Htry.
      destruct (String.eqb_spec (pathname u) "/"); [contradiction|].
      rewrite Htarget, Hparse in Htry. discriminate. }
  rewrite (handleRequest_try_proxied request u _ target Hurl Hpath Htarget Hparse) in Htry.
  right. exists (outbound_request request actualUrlStr target).
  destruct (fetch (outbound_request request actualUrlStr target)) as [response|m] eqn:Hfetch;
    [|discriminate Htry].
  exists response. unfold after_fetch, bind, lift, ret in Htry.
  destruct (is_redirect (status response)).
  - unfold handleRedirect in Htry.
    destruct (URL_new _ (Some actualUrlStr)) as [location|m]; [|discriminate Htry].
    cbn [result_bind] in Htry.
    destruct (Response_new _ _ _ _) as [m|m] eqn:Hnew; [|discriminate Htry].
    cbn [result_bind] in Htry. injection Htry as <- <-.
    apply Response_new_fields in Hnew. destruct Hnew as [Hs [Ht _]].
    repeat split; assumption.
  - destruct (is_html (res_headers response)).
    + destruct (result_map OfText _) as [b|m]; [|discriminate Htry].
      destruct (Response_new _ _ _ _) as [m|m] eqn:Hnew; [|discriminate Htry].
      injection Htry as <- <-.
      apply Response_new_fields in Hnew. destruct Hnew as [Hs [Ht _]].
      repeat split; assumption.
    + destruct (Response_new _ _ _ _) as [m|m] eqn:Hnew; [|discriminate Htry].
      injection Htry as <- <-.
      apply Response_new_fields in Hnew. destruct Hnew as [Hs [Ht _]].
      repeat split; assumption.
Qed.

(** X7. Every inbound header other than [Host] and the [cf-] headers reaches
    the upstream, with the value that headers rebuilt from the iteration hold
    for it: its combined value without the whitespace at the ends.  [Cookie]
    is no exception. *)
Theorem outbound_headers_forward_the_rest (inbound : Headers.t)
    (target_hostname name : string) :
  Str.toLowerCase name <> "host" ->
  Str.startsWith (Str.toLowerCase name) "cf-" = false ->
  Headers.get (outbound_headers inbound target_hostname) name
  = rebuilt_value inbound name.
Proof.
  intros Hhost Hcf. unfold outbound_headers.
  rewrite HeadersFacts.get_set_other by (now apply name_eqb_false).
  assert (Hfiltered : Headers.get (filterHeaders inbound forwarded) name
                      = rebuilt_value inbound name).
  { rewrite LookupFacts.get_filterHeaders. unfold forwarded.
    rewrite EntriesFacts.toLowerCase_idem, Hcf.
    destruct (String.eqb_spec (Str.toLowerCase name) "host"); [contradiction|reflexivity]. }
  destruct (Headers.has inbound "cookie") eqn:Hcookie; [|exact Hfiltered].
  destruct (Headers.name_eqb "Cookie" name) eqn:Hname.
  - unfold Headers.get at 1.
    rewrite <- (values_name_eqb _ _ _ Hname), HeadersFacts.values_set_same.
    cbn [String.concat].
    assert (Hsame : Headers.name_eqb "cookie" name = true) by exact Hname.
    unfold rebuilt_value.
    assert (Hlow : Str.toLowerCase name = "cookie").
    { unfold Headers.name_eqb in Hsame. apply String.eqb_eq in Hsame. now rewrite <- Hsame. }
    rewrite Hlow. change (String.eqb "cookie" "set-cookie") with false. cbv iota.
    unfold Headers.get. rewrite <- (values_name_eqb inbound _ _ Hsame).
    rewrite HeadersFacts.has_get in Hcookie. unfold Headers.get in Hcookie.
    destruct (Headers.values inbound "cookie"); [discriminate|reflexivity].
  - now rewrite HeadersFacts.get_set_other.
Qed.

(** X5. With the protocol of an HTTP request the normalized target starts with
    [http://] or [https://], and normalizing it again changes nothing. *)
Theorem ensureProtocol_is_idempotent (target defaultProtocol : string) :
  defaultProtocol = "http:" \/ defaultProtocol = "https:" ->
  (Str.startsWith (ensureProtocol target defaultProtocol) "http://" = true \/
   Str.startsWith (ensureProtocol target defaultProtocol) "https://" = true) /\
  ensureProtocol (ensureProtocol target defaultProtocol) defaultProtocol
  = ensureProtocol target defaultProtocol.
Proof.
  intros Hp.
  assert (Hstarts :
    Str.startsWith (ensureProtocol target defaultProtocol) "http://" = true \/
    Str.startsWith (ensureProtocol target defaultProtocol) "https://" = true).
  { unfold ensureProtocol.
    destruct (Str.startsWith target "http://") eqn:H1; [now left|].
    destruct (Str.startsWith target "https://") eqn:H2; [now right|].
    cbn [orb]. destruct Hp as [Hp|Hp]; subst defaultProtocol; [left|right];
      unfold Str.startsWith;
      [apply (prefix_here "http://") | apply (prefix_here "https://")]. }
  split; [exact Hstarts|].
  unfold ensureProtocol at 1.
  destruct Hstarts as [H|H]; rewrite H; [reflexivity | now rewrite orb_true_r].
Qed.

Module EscapeFacts.
Import URI.

Lemma result_map_throw (A B : Type) (f : A -> B) (m : string) :
  result_map f (Throw m) = Throw m.
Proof. reflexivity. Qed.

Lemma hex_value_percent : Chars.hex_value Chars.percent = None.
Proof. reflexivity. Qed.

(** A percent sign that the two hexadecimal digits do not follow makes the
    decoder throw, whatever comes before it and in whatever state. *)
Lemma decode_dangling (n : nat) :
  forall pre rest pending need,
    String.length pre <= n -> two_hex rest = false ->
    decode_loop (pre ++ String Chars.percent rest) pending need = Throw URIError.
Proof.
  induction n as [|n IH]; intros pre rest pending need Hlen Hrest.
  - destruct pre; [|cbn in Hlen; lia]. cbn [append].
    destruct need as [|k]; cbn [decode_loop].
    + change (Ascii.eqb Chars.percent Chars.percent) with true. cbv iota.
      destruct rest as [|a [|b t]]; try reflexivity. cbn [two_hex] in Hrest.
      destruct (Chars.hex_value a), (Chars.hex_value b); try reflexivity. discriminate.
    + destruct rest as [|a [|b t]]; try reflexivity. cbn [two_hex] in Hrest.
      change (Ascii.eqb Chars.percent Chars.percent) with true. cbv iota.
      destruct (Chars.hex_value a), (Chars.hex_value b); try reflexivity. discriminate.
  - destruct pre as [|c p]; [apply (IH "" rest pending need); [cbn; lia | exact Hrest]|].
    cbn [String.length] in Hlen. cbn [append].
    destruct need as [|k]; cbn [decode_loop].
    + destruct (Ascii.eqb c Chars.percent).
      * destruct p as [|h1 [|h2 p']]; cbn [append].
        -- destruct rest; [reflexivity|]. rewrite hex_value_percent. reflexivity.
        -- rewrite hex_value_percent. destruct (Chars.hex_value h1); reflexivity.
        -- destruct (Chars.hex_value h1) as [x|]; [|reflexivity].
           destruct (Chars.hex_value h2) as [y|]; [|reflexivity]. cbv zeta.
           destruct (leading_ones (16 * x + y)) as [|[|k]].
           ++ rewrite IH by (cbn [String.length] in Hlen; auto; lia). reflexivity.
           ++ reflexivity.
           ++ destruct (Nat.ltb 2 k); [reflexivity|].
              apply IH; [cbn [String.length] in Hlen; lia | exact Hrest].
      * rewrite IH by (auto; lia). reflexivity.
    + destruct p as [|h1 [|h2 p']]; cbn [append].
      * destruct rest as [|a rest']; [reflexivity|].
        destruct (Ascii.eqb c Chars.percent); [|reflexivity].
        rewrite hex_value_percent. reflexivity.
      * destruct (Ascii.eqb c Chars.percent); [|reflexivity].
        rewrite hex_value_percent. destruct (Chars.hex_value h1); reflexivity.
      * destruct (Ascii.eqb c Chars.percent); [|reflexivity].
        destruct (Chars.hex_value h1) as [x|]; [|reflexivity].
        destruct (Chars.hex_value h2) as [y|]; [|reflexivity]. cbv zeta.
        destruct k as [|k].
        -- destruct (valid_utf8 _); [|reflexivity].
           rewrite IH by (cbn [String.length] in Hlen; auto; lia). reflexivity.
        -- apply IH; [cbn [String.length] in Hlen; lia | exact Hrest].
Qed.

End EscapeFacts.

Lemma strip_leading_slash (s : string) : Str.replace_first "/" "" (String "/" s) = s.
Proof. destruct s; reflexivity. Qed.

(** X1. [decodeURIComponent] undoes [encodeURIComponent] on every well-formed
    text. *)
Theorem decodeURIComponent_undoes_encodeURIComponent (s : string) :
  well_formed s -> URI.decodeURIComponent (URI.encodeURIComponent s) = Ok s.
Proof. apply URIFacts.decode_encode. Qed.

(** X2. A character that is neither unreserved nor the percent sign does not
    occur in the output of [encodeURIComponent]. *)
Theorem encodeURIComponent_leaves_no_delimiter (s : string) (c : ascii) :
  URI.unreserved c = false -> c <> Chars.percent ->
  Str.mem c (URI.encodeURIComponent s) = false.
Proof.
  intros Hc Hp. destruct (Str.mem c (URI.encodeURIComponent s)) eqn:Hmem; [|reflexivity].
  destruct (AlphabetFacts.encode_alphabet s c Hmem) as [H|H]; [congruence | contradiction].
Qed.

(** X3. The [Location] that [handleRedirect] writes leads back to the resolved
    URL: a request for that path has the resolved URL, followed by the
    request's own query, as its target. *)
Theorem rewritten_location_leads_back (u : URL) (resolved : string) :
  well_formed resolved ->
  Str.startsWith resolved "http://" = true \/ Str.startsWith resolved "https://" = true ->
  pathname u = "/" ++ URI.encodeURIComponent resolved ->
  target_of u = Ok (resolved ++ search u).
Proof.
  intros Hwf Hscheme Hpath. unfold target_of. rewrite Hpath.
  change ("/" ++ URI.encodeURIComponent resolved)
    with (String "/" (URI.encodeURIComponent resolved)).
  rewrite strip_leading_slash, (URIFacts.decode_encode _ Hwf).
  cbn [result_map result_bind]. unfold ensureProtocol.
  destruct Hscheme as [H|H]; rewrite H; [reflexivity | now rewrite orb_true_r].
Qed.

(** X4. A path with a percent sign that two hexadecimal digits do not follow is
    answered with the error response of a [URIError], and nothing is
    fetched. *)
Theorem dangling_percent_is_answered_with_500 {E : Environment}
    (request : Request) (u : URL) (pre rest : string) :
  URL_new (url request) None = Ok u ->
  pathname u = "/" ++ pre ++ String Chars.percent rest ->
  two_hex rest = false ->
  serve request = (Ok (error_response URI.URIError), []).
Proof.
  intros Hurl Hpath Hrest. unfold serve. rewrite handleRequest_catch.
  unfold handleRequest_try, bind, lift. rewrite Hurl.
  destruct (String.eqb_spec (pathname u) "/") as [Hroot|_].
  { rewrite Hpath in Hroot. destruct pre; discriminate Hroot. }
  unfold target_of. rewrite Hpath.
  change ("/" ++ pre ++ String Chars.percent rest)
    with (String "/" (pre ++ String Chars.percent rest)).
  rewrite strip_leading_slash. unfold URI.decodeURIComponent.
  rewrite (EscapeFacts.decode_dangling (String.length pre) pre rest [] 0 (le_n _) Hrest).
  reflexivity.
Qed.

Module TwiceFacts.
Import RegExp Pattern RegExpFacts.

Lemma append_prefix_cases (x y u v : string) :
  x ++ y = u ++ v -> (exists w, u = x ++ w) \/ (exists w, w <> "" /\ x = u ++ w).
Proof.
  revert u; induction x as [|c x IH]; intros u H.
  - left. exists u. reflexivity.
  - destruct u as [|d u].
    + right. exists (String c x). split; [discriminate | reflexivity].
    + cbn [append] in H. injection H as -> H.
      destruct (IH u H) as [[w ->]|[w [Hw ->]]]; [left | right]; exists w; auto.
Qed.

Lemma no_quote_mem (s : string) (c : ascii) :
  no_quote s -> quote_char c -> Str.mem c s = false.
Proof.
  intros [Hd Hs] Hc. unfold quote_char in Hc. cbn in Hc.
  destruct Hc as [<-|[<-|[]]]; assumption.
Qed.

Lemma no_quote_append (a b : string) : no_quote a -> no_quote b -> no_quote (a ++ b).
Proof.
  unfold no_quote. intros [H1 H2] [H3 H4]. rewrite !mem_append, H1, H2, H3, H4. auto.
Qed.

Lemma no_quote_tail (c : ascii) (s : string) : no_quote (String c s) -> no_quote s.
Proof.
  unfold no_quote. cbn [Str.mem]. intros [H1 H2].
  apply orb_false_iff in H1, H2. tauto.
Qed.

Lemma head_has_no_slash (a : string) (c : ascii) :
  attribute a -> quote_char c -> Str.mem Chars.slash (a ++ "=" ++ String c "") = false.
Proof.
  unfold attribute, quote_char. cbn [In].
  intros [<-|[<-|[<-|[]]]] [<-|[<-|[]]]; reflexivity.
Qed.

Section Twice.

Variables protocol host : string.
Hypothesis Hprotocol : no_dollar protocol.
Hypothesis Hhost : no_dollar host.
Hypothesis Hquote_protocol : no_quote protocol.
Hypothesis Hquote_host : no_quote host.
Hypothesis Hslash : no_slash protocol.

Local Abbreviation base := (protocol ++ "//" ++ host ++ "/").
Local Abbreviation R := (replace_all relative_path_regex 2 ("$1" ++ base)).

Lemma R_empty : R "" = "".
Proof. reflexivity. Qed.

(** No occurrence starts inside a text that has no quote and ends with a
    slash. *)
Lemma R_inert (W : string) :
  forall Z, no_quote W -> (W = "" \/ exists V, W = V ++ "/") ->
  R (W ++ Z) = W ++ R Z.
Proof.
  induction W as [|c W IH]; intros Z Hq Hend; [reflexivity|].
  destruct Hend as [Hend|[V HV]]; [discriminate|].
  assert (Hmiss : match_here relative_path_regex (String c W ++ Z) = None).
  { destruct (match_here relative_path_regex (String c W ++ Z)) as [x|] eqn:Hm;
      [|reflexivity].
    destruct (match_here_inv _ _ Hm) as [a [q [rest [Ha [Hc [_ [Heq _]]]]]]].
    exfalso.
    replace (a ++ "=" ++ String q ("/" ++ rest))
      with ((a ++ "=" ++ String q "") ++ "/" ++ rest) in Heq
      by (repeat (progress (rewrite ?append_assoc; cbn [append])); reflexivity).
    destruct (append_prefix_cases _ _ _ _ Heq) as [[w Hw]|[w [Hne Hw]]].
    - pose proof (head_has_no_slash a q Ha Hc) as Hno.
      rewrite Hw, HV, !mem_append in Hno. cbn in Hno.
      rewrite orb_true_r in Hno. discriminate Hno.
    - pose proof (no_quote_mem _ q Hq Hc) as Hno.
      rewrite Hw, !mem_append in Hno. cbn [Str.mem append] in Hno.
      rewrite Ascii.eqb_refl in Hno. cbn in Hno.
      rewrite !orb_true_r in Hno. discriminate Hno. }
  change (String c W ++ Z) with (String c (W ++ Z)) in *.
  rewrite (R_miss _ _ Hprotocol Hhost _ _ Hmiss).
  change (String c W ++ R Z) with (String c (W ++ R Z)).
  f_equal. apply IH; [exact (no_quote_tail _ _ Hq)|].
  destruct V as [|d V]; cbn [append] in HV; injection HV as _ HV.
  - now left.
  - right. now exists V.
Qed.

Lemma base_inert (Z : string) : R (base ++ Z) = base ++ R Z.
Proof.
  apply R_inert.
  - repeat apply no_quote_append; auto; split; reflexivity.
  - right. exists (protocol ++ "//" ++ host).
    repeat (progress (rewrite ?append_assoc; cbn [append])). reflexivity.
Qed.

Lemma base_is_no_path (Z r : string) : base ++ Z = "/" ++ r -> no_slash r -> False.
Proof.
  intros Heq Hr. destruct (no_slash_cases _ Hslash) as [Hp|[c [t [Hp Hc]]]];
    rewrite Hp in Heq; cbn [append] in Heq.
  - injection Heq as Heq.
    destruct (no_slash_cases _ Hr) as [Hr'|[d [u [Hr' Hd]]]]; rewrite Hr' in Heq;
      [discriminate Heq | injection Heq as Heq _; now apply Hd].
  - injection Heq as Heq _. now apply Hc.
Qed.

(** The attribute, the quote and the base that a rewrite leaves are copied
    by the next one. *)
Lemma R_rewritten (a : string) (c : ascii) (Z : string) :
  attribute a -> quote_char c ->
  R (a ++ "=" ++ String c (base ++ Z)) = a ++ "=" ++ String c (base ++ R Z).
Proof.
  intros Ha Hc.
  assert (Hmiss : match_here relative_path_regex (a ++ "=" ++ String c (base ++ Z)) = None).
  { destruct (match_here relative_path_regex _) as [x|] eqn:Hm; [|reflexivity].
    destruct (match_here_inv _ _ Hm) as [a' [q' [rest [Ha' [_ [Hrest [Heq _]]]]]]].
    exfalso. clear Hm. unfold attribute in Ha, Ha'. cbn [In] in Ha, Ha'.
    destruct Ha as [<-|[<-|[<-|[]]]]; destruct Ha' as [<-|[<-|[<-|[]]]];
      cbn [append] in Heq; try discriminate Heq;
      injection Heq as _ Heq; exact (base_is_no_path _ _ Heq Hrest). }
  rewrite <- base_inert. remember (base ++ Z) as Y eqn:HY. clear HY.
  unfold attribute, quote_char in Ha, Hc. cbn [In] in Ha, Hc.
  destruct Ha as [<-|[<-|[<-|[]]]]; destruct Hc as [<-|[<-|[]]];
    cbn [append] in Hmiss;
    match type of Hmiss with
    | match_here _ ?s = None =>
        match goal with
        | |- replace_all ?r ?n ?tmpl _ = ?rhs => change (replace_all r n tmpl s = rhs)
        end
    end;
    rewrite (R_miss _ _ Hprotocol Hhost _ _ Hmiss);
    repeat (rewrite (R_miss _ _ Hprotocol Hhost) by reflexivity); reflexivity.
Qed.

Lemma attribute_starts (a Y : string) (m : ascii) (rest : string) :
  attribute a -> a ++ Y = String m rest -> attribute_start m = true.
Proof.
  unfold attribute. cbn [In]. intros [<-|[<-|[<-|[]]]] [= <- _]; reflexivity.
Qed.

(** A character of the output that no attribute name starts with was copied
    from the input. *)
Lemma R_peel (t : string) (m : ascii) (rest : string) :
  R t = String m rest -> attribute_start m = false ->
  exists t', t = String m t' /\ R t' = rest.
Proof.
  intros HR Hm. destruct t as [|d t]; [discriminate HR|].
  destruct (match_here relative_path_regex (String d t)) as [x|] eqn:Hmatch.
  - destruct (match_here_inv _ _ Hmatch) as [a [q [r [Ha [Hq [Hr [Heq _]]]]]]].
    rewrite Heq, (R_hit _ _ Hprotocol Hhost a q r Ha Hq Hr) in HR.
    rewrite (attribute_starts _ _ _ _ Ha HR) in Hm. discriminate Hm.
  - rewrite (R_miss _ _ Hprotocol Hhost _ _ Hmatch) in HR. injection HR as -> HR.
    exists t. split; [reflexivity | exact HR].
Qed.

Lemma R_no_slash (t : string) : no_slash (R t) -> no_slash t.
Proof.
  intros H. destruct t as [|d t]; [reflexivity|].
  destruct (Ascii.eqb_spec d Chars.slash) as [->|Hd]; [|now apply no_slash_cons].
  rewrite (R_miss _ _ Hprotocol Hhost) in H by reflexivity.
  destruct (no_slash_cases _ H) as [Heq|[c [u [Heq Hc]]]];
    [discriminate Heq | injection Heq as Heq _; now elim Hc].
Qed.

Lemma quote_is_no_start (q : ascii) : quote_char q -> attribute_start q = false.
Proof. unfold quote_char. cbn [In]. intros [<-|[<-|[]]]; reflexivity. Qed.

(** Where the rewritten text has an occurrence right after a character, the
    text itself has one. *)
Lemma match_after_rewrite (c : ascii) (t : string) (x : state) :
  match_here relative_path_regex (String c (R t)) = Some x ->
  exists x', match_here relative_path_regex (String c t) = Some x'.
Proof.
  intros Hm.
  destruct (match_here_inv _ _ Hm) as [a [q [rest [Ha [Hq [Hrest [Heq _]]]]]]].
  pose proof (quote_is_no_start q Hq) as Hqs.
  assert (Hfound : exists rest', String c t = a ++ "=" ++ String q ("/" ++ rest')
                                 /\ no_slash rest').
  { unfold attribute in Ha. cbn [In] in Ha.
    destruct Ha as [<-|[<-|[<-|[]]]]; cbn [append] in Heq; injection Heq as -> Heq;
      repeat (let t' := fresh "t" in
              apply R_peel in Heq; [|reflexivity || exact Hqs];
              destruct Heq as [t' [-> Heq]]);
      (eexists; split; [reflexivity|]; apply R_no_slash; now rewrite Heq). }
  destruct Hfound as [rest' [Heq' Hrest']]. rewrite Heq'.
  eexists. apply match_here_found; assumption.
Qed.

Lemma R_twice (n : nat) : forall text, String.length text <= n -> R (R text) = R text.
Proof.
  induction n as [|n IH]; intros text Hlen.
  - destruct text; [reflexivity | cbn in Hlen; lia].
  - destruct text as [|c t]; [reflexivity|].
    destruct (match_here relative_path_regex (String c t)) as [x|] eqn:Hm.
    + destruct (match_here_inv _ _ Hm) as [a [q [rest [Ha [Hq [Hrest [Heq _]]]]]]].
      rewrite Heq, (R_hit _ _ Hprotocol Hhost a q rest Ha Hq Hrest).
      rewrite (R_rewritten a q _ Ha Hq), IH; [reflexivity|].
      apply (f_equal String.length) in Heq. rewrite length_append in Heq.
      cbn [String.length append] in Heq, Hlen. lia.
    + rewrite (R_miss _ _ Hprotocol Hhost _ _ Hm).
      assert (Hm' : match_here relative_path_regex (String c (R t)) = None).
      { destruct (match_here relative_path_regex (String c (R t))) as [y|] eqn:Hy;
          [|reflexivity].
        destruct (match_after_rewrite _ _ _ Hy) as [x' Hx']. congruence. }
      rewrite (R_miss _ _ Hprotocol Hhost _ _ Hm'). f_equal.
      apply IH. cbn [String.length] in Hlen. lia.
Qed.

End Twice.
End TwiceFacts.

(** ** Worked instances *)

Lemma is_ascii_well_formed (s : string) : is_ascii s = true -> well_formed s.
Proof.
  induction s as [|c s IH]; [constructor|]. cbn [is_ascii]. intros H.
  apply andb_true_iff in H. destruct H as [Hc Hs].
  apply wf_ascii; [now apply Nat.ltb_lt | now apply IH].
Qed.

(** X6. Looking a name up in the filtered headers gives nothing when the
    predicate rejects the lower-cased name, and otherwise the value that
    headers rebuilt from the iteration hold: the combined inbound value
    without the whitespace at its ends (for [set-cookie], the values joined
    after each has been normalized). *)
Theorem filterHeaders_lookup (h : Headers.t) (filterFunc : string -> bool) (name : string) :
  Headers.get (filterHeaders h filterFunc) name =
  if filterFunc (Str.toLowerCase name) then rebuilt_value h name else None.
Proof. apply LookupFacts.get_filterHeaders. Qed.

Lemma filterHeaders_lookup_witness :
  Headers.get (filterHeaders Scenario.repeated_headers (fun _ => true)) "X-A"
  = Some "1,".
Proof.
  exact (filterHeaders_lookup Scenario.repeated_headers (fun _ => true) "X-A").
Defined.


(** X16. Rewriting a rewritten text changes nothing, when the protocol and the
    host have no [$] and no quote and the protocol does not start with a
    slash. *)
Theorem replaceRelativePaths_is_idempotent (text protocol host origin1 origin2 : string) :
  Str.mem Chars.dollar protocol = false ->
  Str.mem Chars.dollar host = false ->
  no_quote protocol ->
  no_quote host ->
  Str.startsWith protocol "/" = false ->
  replaceRelativePaths (replaceRelativePaths text protocol host origin1) protocol host origin2
  = replaceRelativePaths text protocol host origin1.
Proof.
  intros Hp Hh Hqp Hqh Hs. unfold replaceRelativePaths.
  apply (TwiceFacts.R_twice protocol host Hp Hh Hqp Hqh Hs (String.length text)).
  apply le_n.
Qed.

Lemma decodeURIComponent_undoes_encodeURIComponent_witness :
  URI.decodeURIComponent
    (URI.encodeURIComponent (String "a" (String "/" (URI.bytes_to_string [195; 169] ++ ""))))
  = Ok (String "a" (String "/" (URI.bytes_to_string [195; 169] ++ ""))).
Proof.
  apply decodeURIComponent_undoes_encodeURIComponent.
  apply wf_ascii; [vm_compute; lia|]. apply wf_ascii; [vm_compute; lia|].
  apply wf_sequence; [reflexivity | apply wf_empty].
Defined.

Lemma encodeURIComponent_leaves_no_delimiter_witness :
  Str.mem Chars.slash (URI.encodeURIComponent "https://example.com/login") = false.
Proof.
  apply encodeURIComponent_leaves_no_delimiter; [reflexivity | discriminate].
Defined.

Lemma rewritten_location_leads_back_witness :
  target_of (Demo.proxy_url "/https%3A%2F%2Fexample.com%2Flogin" None)
  = Ok ("https://example.com/login" ++ "").
Proof.
  apply (rewritten_location_leads_back
           (Demo.proxy_url "/https%3A%2F%2Fexample.com%2Flogin" None)
           "https://example.com/login").
  - apply is_ascii_well_formed. reflexivity.
  - right. reflexivity.
  - reflexivity.
Defined.

Lemma dangling_percent_is_answered_with_500_witness :
  @serve Scenario.env Scenario.percent_request = (Ok (error_response URI.URIError), []).
Proof.
  apply (@dangling_percent_is_answered_with_500 Scenario.env Scenario.percent_request
           (Demo.proxy_url "/100%" None) "100" ""); reflexivity.
Defined.

Lemma ensureProtocol_is_idempotent_witness :
  (Str.startsWith (ensureProtocol "example.com/a" "https:") "http://" = true \/
   Str.startsWith (ensureProtocol "example.com/a" "https:") "https://" = true) /\
  ensureProtocol (ensureProtocol "example.com/a" "https:") "https:"
  = ensureProtocol "example.com/a" "https:".
Proof.
  apply ensureProtocol_is_idempotent. right. reflexivity.
Defined.

Lemma outbound_headers_forward_the_rest_witness :
  Headers.get (outbound_headers Scenario.repeated_headers "example.com") "X-A"
  = Some "1," /\
  Headers.get (outbound_headers Scenario.repeated_headers "example.com") "Cookie"
  = Some "a=1,".
Proof.
  split.
  - apply (outbound_headers_forward_the_rest Scenario.repeated_headers "example.com" "X-A");
      [discriminate | reflexivity].
  - apply (outbound_headers_forward_the_rest Scenario.repeated_headers "example.com"
             "Cookie"); [discriminate | reflexivity].
Defined.

Lemma pass_through_keeps_status_and_body_witness :
  exists r,
    @serve Scenario.env Scenario.data_request
    = (Ok r, [outbound_request Scenario.data_request "https://example.com/data"
                (Demo.upstream_url "/data" None)]) /\
    status r = 200 /\ statusText r = "OK" /\ res_body r = StreamBody (Ok "{}").
Proof.
  apply (@pass_through_keeps_status_and_body Scenario.env Scenario.data_request
           (Demo.proxy_url "/example.com%2Fdata" None) "https://example.com/data"
           (Demo.upstream_url "/data" None) Scenario.data_response
           eq_refl ltac:(discriminate) eq_refl eq_refl eq_refl);
    [reflexivity | reflexivity | cbn; lia | right; reflexivity].
Defined.

Lemma html_body_is_rewritten_witness :
  exists r,
    @serve Scenario.env Scenario.home_request
    = (Ok r, [outbound_request Scenario.home_request "https://example.com/home"
                (Demo.upstream_url "/home" None)]) /\
    status r = 200 /\ statusText r = "OK" /\
    res_body r = StreamBody (Ok (Demo.image_tag "https://proxy.example/logo.png")).
Proof.
  apply (@html_body_is_rewritten Scenario.env Scenario.home_request
           (Demo.proxy_url "/example.com%2Fhome" None) "https://example.com/home"
           (Demo.upstream_url "/home" None) Scenario.home_response
           eq_refl ltac:(discriminate) eq_refl eq_refl eq_refl
           (Demo.image_tag "/logo.png"));
    [reflexivity | reflexivity | reflexivity | cbn; lia | reflexivity].
Defined.

Lemma proxied_response_keeps_upstream_headers_witness :
  exists r log,
    @handleRequest_try Scenario.env Scenario.data_request [] = (Ok r, log) /\
    Headers.get (res_headers r) "ETag" = Some "abc".
Proof.
  eexists. eexists. split; [vm_compute; reflexivity|].
  refine (proj2 (proj2
    (@proxied_response_keeps_upstream_headers Scenario.env Scenario.data_request
       (Demo.proxy_url "/example.com%2Fdata" None) "https://example.com/data"
       (Demo.upstream_url "/data" None) Scenario.data_response
       eq_refl ltac:(discriminate) eq_refl eq_refl eq_refl _ [] _ eq_refl eq_refl))
    "ETag" _).
  cbn. intuition discriminate.
Defined.

Lemma set_cookie_values_are_joined_witness :
  (exists r log,
     @handleRequest_try Scenario.env Scenario.data_request [] = (Ok r, log) /\
     Headers.values (res_headers r) "Set-Cookie" = ["a=1, b=2"]) /\
  (exists r log,
     @handleRequest_try Scenario.env Scenario.jar_request [] = (Ok r, log) /\
     Headers.values (res_headers r) "Set-Cookie" = ["a=1,"]).
Proof.
  split.
  - eexists. eexists. split; [vm_compute; reflexivity|].
    refine (@set_cookie_values_are_joined Scenario.env Scenario.data_request
              (Demo.proxy_url "/example.com%2Fdata" None) "https://example.com/data"
              (Demo.upstream_url "/data" None) Scenario.data_response
              eq_refl ltac:(discriminate) eq_refl eq_refl eq_refl _ [] _ eq_refl eq_refl).
  - eexists. eexists. split; [vm_compute; reflexivity|].
    refine (@set_cookie_values_are_joined Scenario.env Scenario.jar_request
              (Demo.proxy_url "/example.com%2Fjar" None) "https://example.com/jar"
              (Demo.upstream_url "/jar" None) Scenario.jar_response
              eq_refl ltac:(discriminate) eq_refl eq_refl eq_refl _ [] _ eq_refl eq_refl).
Defined.

Lemma unconstructible_response_becomes_500_witness :
  exists message,
    @serve Scenario.env Scenario.denied_request
    = (Ok (error_response message),
       [outbound_request Scenario.denied_request "https://example.com/denied"
          (Demo.upstream_url "/denied" None)]).
Proof.
  apply (@unconstructible_response_becomes_500 Scenario.env Scenario.denied_request
           (Demo.proxy_url "/example.com%2Fdenied" None) "https://example.com/denied"
           (Demo.upstream_url "/denied" None) Scenario.denied_response
           eq_refl ltac:(discriminate) eq_refl eq_refl eq_refl).
  right. left. cbn. lia.
Defined.

Lemma html_without_text_keeps_no_body_witness :
  exists r,
    @serve Scenario.env Scenario.cached_request
    = (Ok r, [outbound_request Scenario.cached_request "https://example.com/cached"
                (Demo.upstream_url "/cached" None)]) /\
    status r = 304 /\ statusText r = "Not Modified" /\ res_body r = NullBody.
Proof.
  apply (@html_without_text_keeps_no_body Scenario.env Scenario.cached_request
           (Demo.proxy_url "/example.com%2Fcached" None) "https://example.com/cached"
           (Demo.upstream_url "/cached" None) Scenario.cached_response
           eq_refl ltac:(discriminate) eq_refl eq_refl eq_refl);
    [reflexivity | reflexivity | cbn; lia | reflexivity].
Defined.

Lemma redirect_without_location_resolves_null_witness :
  exists r,
    @serve Scenario.env Scenario.gone_request
    = (Ok r, [outbound_request Scenario.gone_request "https://example.com/gone"
                (Demo.upstream_url "/gone" None)]) /\
    status r = 301 /\
    Headers.get (res_headers r) "Location" = Some "/https%3A%2F%2Fexample.com%2Fnull".
Proof.
  apply (@redirect_without_location_resolves_null Scenario.env Scenario.gone_request
           (Demo.proxy_url "/example.com%2Fgone" None) "https://example.com/gone"
           (Demo.upstream_url "/gone" None) Scenario.gone_response
           eq_refl ltac:(discriminate) eq_refl eq_refl eq_refl
           (Demo.upstream_url "/null" None));
    [cbn; auto | reflexivity | reflexivity].
Defined.

Lemma response_status_comes_from_upstream_witness :
  exists r log,
    @serve Scenario.env Scenario.data_request = (Ok r, log) /\
    ((exists message, r = error_response message) \/
     (log = [] /\ status r = 200 /\
      res_body r = StreamBody (Ok (@getRootHtml Scenario.env))) \/
     (exists out response,
        log = [out] /\ @fetch Scenario.env out = Ok response /\
        status r = status response /\ statusText r = statusText response)).
Proof.
  eexists. eexists. split; [vm_compute; reflexivity|].
  apply (@response_status_comes_from_upstream Scenario.env Scenario.data_request).
  vm_compute. reflexivity.
Defined.

Lemma replaceRelativePaths_is_idempotent_witness :
  replaceRelativePaths
    (replaceRelativePaths (Demo.image_tag "/logo.png") "https:" "proxy.example" "")
    "https:" "proxy.example" ""
  = replaceRelativePaths (Demo.image_tag "/logo.png") "https:" "proxy.example" "".
Proof.
  apply replaceRelativePaths_is_idempotent; try reflexivity; split; reflexivity.
Defined.
